(** * directus_client: the query cache, its invalidation by webhook events,
      and the request path that ties them together.

    The development follows the Go sources of the package:
    - the cache  : [redisCacheService], [noopCacheService], [queryKey],
                   [refreshableQueryCache] (Get, Set, pruneCollection);
    - the event server : [WebhookEvent], [WebhookEventServer] (AddObserver,
                   RemoveObserver, the debounce pipeline of [serve] and
                   [makeTimedBufferTransferChan], the HTTP handler);
    - the client : [DirectusClient] and its [Call].

    Go strings are byte sequences and are modelled as [string]; a [[]byte]
    is a [list byte]; a Go [error] is an [option string] ([None] is nil).
    A goroutine that parks forever on a lock it can never obtain is the
    outcome [Blocked]. *)

From Stdlib Require Import ZArith Ascii String.
From Stdlib.Strings Require Import Byte.
From stdpp Require Import gmap strings list fin_maps.

Open Scope Z_scope.

(* ===================================================================== *)
(** ** The parts of the Go library the package relies on                  *)
(* ===================================================================== *)

Definition bytes := list byte.
Definition error := option string.

#[export] Instance byte_eq_decision : EqDecision byte := Byte.byte_eq_dec.

(** The double quote character, which the format string of [queryKey] uses. *)
Definition dquote : string := String "034"%char EmptyString.

Module strings.

(** [strings.Split(s, sep)] for a one-byte separator: every occurrence of
    [sep] ends a piece, so the result always has one piece more than there
    are separators. *)
Fixpoint Split (s : string) (sep : ascii) : list string :=
  match s with
  | EmptyString => [EmptyString]
  | String a s' =>
      if Ascii.eqb a sep then EmptyString :: Split s' sep
      else match Split s' sep with
           | piece :: pieces => String a piece :: pieces
           | [] => [String a EmptyString]
           end
  end.

(** [strings.TrimPrefix] as a test: the rest of [s] after [p], if [s]
    starts with [p]. *)
Fixpoint CutPrefix (s p : string) : option string :=
  match p, s with
  | EmptyString, _ => Some s
  | String b p', String a s' => if Ascii.eqb a b then CutPrefix s' p' else None
  | String _ _, EmptyString => None
  end.

(** [strings.Cut(s, sep)]: the text before and after the first occurrence
    of [sep]. *)
Fixpoint Cut (s sep : string) : option (string * string) :=
  match CutPrefix s sep with
  | Some rest => Some (EmptyString, rest)
  | None =>
      match s with
      | EmptyString => None
      | String a s' =>
          match Cut s' sep with
          | Some (before, after) => Some (String a before, after)
          | None => None
          end
      end
  end.

(** [strings.SplitN(s, sep, 2)]: at most two pieces, cut at the first
    occurrence of [sep]. *)
Definition SplitN2 (s sep : string) : list string :=
  match Cut s sep with
  | Some (before, after) => [before; after]
  | None => [s]
  end.

(** [strings.IndexByte(s, a) >= 0] *)
Fixpoint ContainsByte (s : string) (a : ascii) : bool :=
  match s with
  | EmptyString => false
  | String b s' => Ascii.eqb b a || ContainsByte s' a
  end.

(** [s[len(s)-1]], if [s] is not empty. *)
Fixpoint lastByte (s : string) : option ascii :=
  match s with
  | EmptyString => None
  | String a s' =>
      match s' with
      | EmptyString => Some a
      | String _ _ => lastByte s'
      end
  end.

End strings.

Module strconv.

Definition digit (d : Z) : ascii :=
  if d <? 10 then ascii_of_N (Z.to_N (48 + d)) else ascii_of_N (Z.to_N (87 + d)).

Fixpoint formatBits (fuel : nat) (x : Z) (base : Z) (acc : string) : string :=
  match fuel with
  | O => acc
  | S fuel' =>
      let acc' := String (digit (x mod base)) acc in
      if x / base =? 0 then acc' else formatBits fuel' (x / base) base acc'
  end.

(** [strconv.FormatUint(x, base)] on a [uint64]: lower-case digits, no
    leading zero, ["0"] for zero.  Sixty-four digits are enough for every
    base. *)
Definition FormatUint (x : Z) (base : Z) : string :=
  formatBits 64 x base EmptyString.

(** [strconv.Itoa] on a non-negative [int]. *)
Definition Itoa (x : Z) : string := formatBits 64 x 10 EmptyString.

End strconv.

(** github.com/cespare/xxhash/v2: the 64-bit xxHash with seed 0.  A [Digest]
    that is written once and then summed hashes the written bytes, which is
    how [queryKey] uses it.  All arithmetic is on [uint64] and wraps. *)
Module xxhash.

Definition wrap64 (x : Z) : Z := x mod 2 ^ 64.

Definition prime1 : Z := 11400714785074694791.
Definition prime2 : Z := 14029467366897019727.
Definition prime3 : Z := 1609587929392839161.
Definition prime4 : Z := 9650029242287828579.
Definition prime5 : Z := 2870177450012600261.

Definition rol (r x : Z) : Z :=
  wrap64 (Z.lor (Z.shiftl x r) (Z.shiftr x (64 - r))).

Definition round (acc input : Z) : Z :=
  wrap64 (rol 31 (wrap64 (acc + input * prime2)) * prime1).

Definition mergeRound (acc val : Z) : Z :=
  wrap64 (Z.lxor acc (round 0 val) * prime1 + prime4).

(** Little-endian reads of the first [n] bytes. *)
Fixpoint le (n : nat) (b : list Z) : Z :=
  match n, b with
  | S n', x :: b' => x + 256 * le n' b'
  | _, _ => 0
  end.

Definition u64 : list Z -> Z := le 8.
Definition u32 : list Z -> Z := le 4.

Record lanes := { v1 : Z; v2 : Z; v3 : Z; v4 : Z }.

(** The 32-byte stripes of a long input. *)
Fixpoint stripes (fuel : nat) (v : lanes) (b : list Z) : lanes * list Z :=
  match fuel with
  | O => (v, b)
  | S fuel' =>
      if decide (32 <= length b)%nat then
        stripes fuel'
          {| v1 := round (v1 v) (u64 b);
             v2 := round (v2 v) (u64 (drop 8 b));
             v3 := round (v3 v) (u64 (drop 16 b));
             v4 := round (v4 v) (u64 (drop 24 b)) |} (drop 32 b)
      else (v, b)
  end.

Fixpoint tail8 (fuel : nat) (h : Z) (b : list Z) : Z * list Z :=
  match fuel with
  | O => (h, b)
  | S fuel' =>
      if decide (8 <= length b)%nat then
        tail8 fuel'
          (wrap64 (rol 27 (Z.lxor h (round 0 (u64 b))) * prime1 + prime4))
          (drop 8 b)
      else (h, b)
  end.

Definition tail4 (h : Z) (b : list Z) : Z * list Z :=
  if decide (4 <= length b)%nat then
    (wrap64 (rol 23 (Z.lxor h (wrap64 (u32 b * prime1))) * prime2 + prime3),
     drop 4 b)
  else (h, b).

Fixpoint tail1 (h : Z) (b : list Z) : Z :=
  match b with
  | [] => h
  | x :: b' => tail1 (wrap64 (rol 11 (Z.lxor h (wrap64 (x * prime5))) * prime1)) b'
  end.

Definition avalanche (h : Z) : Z :=
  let h := Z.lxor h (Z.shiftr h 33) in
  let h := wrap64 (h * prime2) in
  let h := Z.lxor h (Z.shiftr h 29) in
  let h := wrap64 (h * prime3) in
  Z.lxor h (Z.shiftr h 32).

Definition Sum64 (b : list Z) : Z :=
  let n := Z.of_nat (length b) in
  let '(h, rest) :=
    if decide (32 <= length b)%nat then
      let '(v, rest) :=
        stripes (length b)
          {| v1 := wrap64 (prime1 + prime2); v2 := prime2; v3 := 0;
             v4 := wrap64 (0 - prime1) |} b in
      let h := wrap64 (rol 1 (v1 v) + rol 7 (v2 v) + rol 12 (v3 v) + rol 18 (v4 v)) in
      (mergeRound (mergeRound (mergeRound (mergeRound h (v1 v)) (v2 v)) (v3 v)) (v4 v),
       rest)
    else (prime5, b) in
  let h := wrap64 (h + n) in
  let '(h, rest) := tail8 (length rest) h rest in
  let '(h, rest) := tail4 h rest in
  avalanche (tail1 h rest).

(** [h.Write([]byte(q)); h.Sum64()] on a fresh digest. *)
Definition Sum64String (q : string) : Z :=
  Sum64 ((fun a => Z.of_N (N_of_ascii a)) <$> list_ascii_of_string q).

End xxhash.

(* ===================================================================== *)
(** ** cache.go: the cache key                                            *)
(* ===================================================================== *)

(** [fmt.Sprintf(`{"id": {"_eq": %s}}`, id)]. *)
Definition idFilter (id : string) : string :=
  "{" ++ dquote ++ "id" ++ dquote ++ ": {" ++ dquote ++ "_eq" ++ dquote ++ ": "
      ++ id ++ "}}".

(** The filter as the specification writes it, [{"id":{"_eq":"<id>"}}], to
    compare with [idFilter]. *)
Definition specIdFilter (id : string) : string :=
  "{" ++ dquote ++ "id" ++ dquote ++ ":{" ++ dquote ++ "_eq" ++ dquote ++ ":"
      ++ dquote ++ id ++ dquote ++ "}}".

Definition queryKey (c q : string) : string :=
  let split := strings.Split c "/" in
  let '(c, q) :=
    match split with
    | [collection; id] => (collection, idFilter id)
    | _ => (c, q)
    end in
  c ++ ":" ++ strconv.FormatUint (xxhash.Sum64String q) 16.

(* ===================================================================== *)
(** ** sync.RWMutex and the outcome of a call that may park               *)
(* ===================================================================== *)

(** What a call of one goroutine does to the shared state [S]: it returns a
    result, or it parks on a lock that is held and is never seen again.  In
    both cases the state carries every write the call had made by then. *)
Inductive outcome (R S : Type) : Type :=
| Returned (r : R) (s : S)
| Blocked (s : S).
Arguments Returned {R S} r s.
Arguments Blocked {R S} s.

Definition state_of {R S : Type} (o : outcome R S) : S :=
  match o with
  | Returned _ s => s
  | Blocked s => s
  end.

Module sync.

(** A [sync.RWMutex]: whether a writer holds it, and how many readers do. *)
Record RWMutex := { writer : bool; readers : nat }.

Definition unlocked : RWMutex := {| writer := false; readers := 0 |}.

(** Nobody holds the mutex. *)
Definition free (m : RWMutex) : Prop := writer m = false /\ readers m = 0%nat.

#[export] Instance free_dec (m : RWMutex) : Decision (free m).
Proof. unfold free. apply _. Defined.

(** [Lock] needs the mutex free of the writer and of every reader;
    [None] means the caller parks. *)
Definition Lock (m : RWMutex) : option RWMutex :=
  if writer m then None
  else match readers m with
       | O => Some {| writer := true; readers := 0 |}
       | S _ => None
       end.

Definition Unlock (m : RWMutex) : RWMutex :=
  {| writer := false; readers := readers m |}.

(** [RLock] only needs the writer away.  (The runtime also holds a reader
    back while a [Lock] call is waiting for readers to leave; the state keeps
    no waiting calls, and a lock that nobody holds has none.) *)
Definition RLock (m : RWMutex) : option RWMutex :=
  if writer m then None
  else Some {| writer := false; readers := S (readers m) |}.

Definition RUnlock (m : RWMutex) : RWMutex :=
  {| writer := writer m; readers := pred (readers m) |}.

End sync.

(* ===================================================================== *)
(** ** The webhook event server                                           *)
(* ===================================================================== *)

Record WebhookEvent := {
  Event : string;
  Payload : bytes;          (* json.RawMessage *)
  Key : string;
  Collection : string
}.

#[export] Instance WebhookEvent_eq_dec : EqDecision WebhookEvent.
Proof. solve_decision. Defined.

Section Registry.

(** The callbacks, [func(WebhookEvent)] in the source. *)
Context {F : Type}.

Record WebhookEventServer := {
  wes_mu : sync.RWMutex;
  observes : gmap string F
}.

Definition NewWebhookEventServer : WebhookEventServer :=
  {| wes_mu := sync.unlocked; observes := ∅ |}.

(** [AddObserver]: Lock, and Unlock deferred to every return. *)
Definition AddObserver (collection : string) (f : F) (wes : WebhookEventServer)
  : outcome error WebhookEventServer :=
  match sync.Lock (wes_mu wes) with
  | None => Blocked wes
  | Some held =>
      match observes wes !! collection with
      | Some _ =>
          Returned (Some "collection already exists")
            {| wes_mu := sync.Unlock held; observes := observes wes |}
      | None =>
          Returned None
            {| wes_mu := sync.Unlock held;
               observes := <[collection := f]> (observes wes) |}
      end
  end.

(** [RemoveObserver]: RLock, delete, return.  The source has no RUnlock. *)
Definition RemoveObserver (collection : string) (wes : WebhookEventServer)
  : outcome unit WebhookEventServer :=
  match sync.RLock (wes_mu wes) with
  | None => Blocked wes
  | Some held =>
      Returned tt {| wes_mu := held; observes := delete collection (observes wes) |}
  end.

(** The key under which the flush deduplicates:
    [e.Collection+":"+e.Event+":"+e.Key]. *)
Definition compositeKey (e : WebhookEvent) : string :=
  Collection e ++ ":" ++ Event e ++ ":" ++ Key e.

(** [uniqueEvents]: the map the flush fills, one assignment per event of
    the batch, in the order of the batch. *)
Definition uniqueEvents (ex : list WebhookEvent) : gmap string WebhookEvent :=
  foldl (fun m e => <[compositeKey e := e]> m) ∅ ex.

(** The events the dispatch loop ranges over.  Go leaves the order of a
    map range open; the model takes the order of [map_to_list]. *)
Definition flushEvents (ex : list WebhookEvent) : list WebhookEvent :=
  (map_to_list (uniqueEvents ex)).*2.

(** The callbacks one event reaches: the one of its collection, then the
    wildcard one. *)
Definition invocations (obs : gmap string F) (e : WebhookEvent)
  : list (F * WebhookEvent) :=
  match obs !! Collection e with Some f => [(f, e)] | None => [] end
  ++ match obs !! "*" with Some f => [(f, e)] | None => [] end.

(** All calls of one flush, in order. *)
Definition dispatchCalls (obs : gmap string F) (ex : list WebhookEvent)
  : list (F * WebhookEvent) :=
  flat_map (invocations obs) (flushEvents ex).

End Registry.
Arguments WebhookEventServer : clear implicits.

(** *** The debounce pipeline, [makeTimedBufferTransferChan]

    Two buffered channels of capacity 4 and the batch that the timer
    goroutine owns.  Each function below is one step of one goroutine;
    [None] means the step cannot be taken now (a send on a full channel, a
    receive on an empty one). *)
Module flux.

Definition capacity : nat := 4.

Record t := {
  inChan : list WebhookEvent;
  buf : list WebhookEvent;
  outChan : list (list WebhookEvent)
}.

Definition empty : t := {| inChan := []; buf := []; outChan := [] |}.

(** [fluxInput <- we] *)
Definition send (we : WebhookEvent) (p : t) : option t :=
  if decide (length (inChan p) < capacity)%nat then
    Some {| inChan := inChan p ++ [we]; buf := buf p; outChan := outChan p |}
  else None.

(** [case e := <-inChan: buf = append(buf, e)] *)
Definition collect (p : t) : option t :=
  match inChan p with
  | e :: rest => Some {| inChan := rest; buf := buf p ++ [e]; outChan := outChan p |}
  | [] => None
  end.

(** [case <-time.Tick(duration)]: a non-empty batch is handed over and a
    new one started; an empty one is left alone. *)
Definition tick (p : t) : option t :=
  match buf p with
  | [] => Some p
  | _ :: _ =>
      if decide (length (outChan p) < capacity)%nat then
        Some {| inChan := inChan p; buf := []; outChan := outChan p ++ [buf p] |}
      else None
  end.

(** [case ex := <-fluxOutput] *)
Definition receive (p : t) : option (list WebhookEvent * t) :=
  match outChan p with
  | ex :: rest => Some (ex, {| inChan := inChan p; buf := buf p; outChan := rest |})
  | [] => None
  end.

(** The steps of the handlers and of the timer goroutine, and a schedule of
    them. *)
Inductive step := Send (we : WebhookEvent) | Collect | Tick.

Definition run1 (st : step) (p : t) : option t :=
  match st with
  | Send we => send we p
  | Collect => collect p
  | Tick => tick p
  end.

Fixpoint run (steps : list step) (p : t) : option t :=
  match steps with
  | [] => Some p
  | st :: steps' =>
      match run1 st p with
      | Some p' => run steps' p'
      | None => None
      end
  end.

(** One window with three submissions: the batch the dispatch goroutine
    receives after the tick, and what is left in the pipeline. *)
Definition window3 (e1 e2 e3 : WebhookEvent) : option (list WebhookEvent * t) :=
  match run [Send e1; Collect; Send e2; Send e3; Collect; Collect; Tick] empty with
  | Some p => receive p
  | None => None
  end.

End flux.

(** *** The HTTP handler of the ingestion endpoint *)

Module http.

Definition StatusOK : Z := 200.
Definition StatusBadRequest : Z := 400.
Definition StatusMethodNotAllowed : Z := 405.
Definition StatusInternalServerError : Z := 500.

(** [http.Header] and its [Get]: the first value under the key, or the
    empty string. *)
Definition Header := gmap string (list string).

Definition Header_Get (h : Header) (key : string) : string :=
  match h !! key with
  | Some (v :: _) => v
  | _ => EmptyString
  end.

Definition Header_Set (h : Header) (key value : string) : Header :=
  <[key := [value]]> h.

(** What a handler leaves in its [ResponseWriter]. *)
Record Written := { status : Z; written : string }.

(** [http.Error(w, msg, code)]: the status, and the message on a line. *)
Definition Error (msg : string) (code : Z) : Written :=
  {| status := code; written := msg ++ String "010"%char EmptyString |}.

End http.

Record IngestRequest := {
  in_Method : string;
  in_Header : http.Header;
  in_Body : bytes
}.

Section Handler.

(** [json.NewDecoder(r.Body).Decode(we)]: the event, or the text of the
    decoder's error. *)
Variable Decode : bytes -> string + WebhookEvent.

(** The handler that [serve] mounts on the path.  It answers, or it is
    still waiting to hand the event to the pipeline ([None]). *)
Definition handler (r : IngestRequest) (p : flux.t) : option (http.Written * flux.t) :=
  if negb (String.eqb (in_Method r) "POST") then
    Some (http.Error "method not allowed" http.StatusMethodNotAllowed, p)
  else if negb (String.eqb (http.Header_Get (in_Header r) "Content-Type")
                  "application/json") then
    Some (http.Error "content type must be application/json" http.StatusBadRequest, p)
  else
    match Decode (in_Body r) with
    | inl err => Some (http.Error err http.StatusBadRequest, p)
    | inr we =>
        match flux.send we p with
        | Some p' => Some ({| http.status := http.StatusOK; http.written := EmptyString |}, p')
        | None => None
        end
    end.

End Handler.

(* ===================================================================== *)
(** ** cache.go: the store                                                *)
(* ===================================================================== *)

Inductive result (A : Type) : Type :=
| Ok (a : A)
| Err (msg : string).
Arguments Ok {A} a.
Arguments Err {A} msg.

Module io.

(** An [io.Reader] as [io.ReadAll] sees it: the bytes it yields and the
    error, if any, that ends the reading. *)
Record Reader := { content : bytes; failure : error }.

Definition ReadAll (r : Reader) : bytes * error := (content r, failure r).

(** [io.NopCloser(bytes.NewReader(b))] *)
Definition NewReader (b : bytes) : Reader := {| content := b; failure := None |}.

End io.

(** The Redis server behind go-redis: its key space, and whether it answers
    at all (a server that is down or too slow fails every command).  The
    commands take keys literally; time does not pass inside the model, so no
    entry expires. *)
Module redis.

Record Server := { kv : gmap string bytes; up : bool }.

Definition Nil : string := "redis: nil".
Definition unreachable : string := "context deadline exceeded".

Definition GET (key : string) (s : Server) : result bytes :=
  if up s then
    match kv s !! key with
    | Some v => Ok v
    | None => Err Nil
    end
  else Err unreachable.

Definition SET (key : string) (value : bytes) (s : Server) : error * Server :=
  if up s then (None, {| kv := <[key := value]> (kv s); up := up s |})
  else (Some unreachable, s).

(** DEL removes the key it is given, and it is no error if there is none. *)
Definition DEL (key : string) (s : Server) : error * Server :=
  if up s then (None, {| kv := delete key (kv s); up := up s |})
  else (Some unreachable, s).

End redis.

Record redisCacheService := {
  r : redis.Server;
  keyspace : string
}.

Definition with_server (cs : redisCacheService) (s : redis.Server) : redisCacheService :=
  {| r := s; keyspace := keyspace cs |}.

Module redisCacheService.

Definition Get (key : string) (cs : redisCacheService) : result bytes :=
  redis.GET (keyspace cs ++ ":" ++ key) (r cs).

Definition Set_ (key : string) (value : bytes) (cs : redisCacheService)
  : error * redisCacheService :=
  let '(err, s) := redis.SET (keyspace cs ++ ":" ++ key) value (r cs) in
  (err, with_server cs s).

Definition Del (key : string) (cs : redisCacheService) : error * redisCacheService :=
  let '(err, s) := redis.DEL (keyspace cs ++ ":" ++ key) (r cs) in
  (err, with_server cs s).

End redisCacheService.

(* ===================================================================== *)
(** ** cache.go: the query caches                                         *)
(* ===================================================================== *)

(** The interface [QueryCache], over the state [Q] of an implementation. *)
Class QueryCache (Q : Type) := {
  cacheGet : string -> string -> Q -> result io.Reader;
  cacheSet : string -> string -> io.Reader -> Q -> outcome (bytes * error) Q
}.

(** [noopCacheService] *)
Module noopCacheService.

Definition Get (collection rawQuery : string) (q : unit) : result io.Reader :=
  Err "get item from noop cache".

Definition Set_ (collection rawQuery : string) (value : io.Reader) (q : unit)
  : outcome (bytes * error) unit :=
  Returned (io.ReadAll value) q.

End noopCacheService.

#[export] Instance noopCacheService_QueryCache : QueryCache unit :=
  {| cacheGet := noopCacheService.Get; cacheSet := noopCacheService.Set_ |}.

(** The callbacks registered with the event server: the closure that
    [refreshableQueryCache.Set] makes for a collection, and any callback of
    the embedding program, which does not touch the cache. *)
Inductive Observer :=
| pruneObserver (collection : string)
| externalObserver (id : nat).

Record refreshableQueryCache := {
  mu : sync.RWMutex;
  store : redisCacheService;
  observedCollections : gset string;
  wes : WebhookEventServer Observer
}.

Definition NewRefreshableQueryCache (store : redisCacheService)
    (wes : WebhookEventServer Observer) : refreshableQueryCache :=
  {| mu := sync.unlocked; store := store; observedCollections := ∅; wes := wes |}.

Module refreshableQueryCache.

Definition Get (collection rawQuery : string) (q : refreshableQueryCache)
  : result io.Reader :=
  let key := queryKey collection rawQuery in
  match redisCacheService.Get key (store q) with
  | Err err => Err err
  | Ok data => Ok (io.NewReader data)
  end.

Definition Set_ (collection rawQuery : string) (data : io.Reader)
    (q : refreshableQueryCache) : outcome (bytes * error) refreshableQueryCache :=
  let '(b, err) := io.ReadAll data in
  match err with
  | Some _ => Returned ([], err) q
  | None =>
      match redisCacheService.Set_ (queryKey collection rawQuery) b (store q) with
      | (Some err, _) => Returned ([], Some err) q
      | (None, store') =>
          let q := {| mu := mu q; store := store';
                      observedCollections := observedCollections q; wes := wes q |} in
          (* q.mu.Lock() *)
          match sync.Lock (mu q) with
          | None => Blocked q
          | Some held =>
              if decide (collection ∈ observedCollections q) then
                (* return b, nil: the lock stays with the caller *)
                Returned (b, None)
                  {| mu := held; store := store q;
                     observedCollections := observedCollections q; wes := wes q |}
              else
                let q := {| mu := sync.Unlock held; store := store q;
                            observedCollections := {[collection]} ∪ observedCollections q;
                            wes := wes q |} in
                match AddObserver collection (pruneObserver collection) (wes q) with
                | Blocked _ => Blocked q
                | Returned _ wes' =>
                    (* an error of AddObserver is logged and dropped *)
                    Returned (b, None)
                      {| mu := mu q; store := store q;
                         observedCollections := observedCollections q; wes := wes' |}
                end
          end
      end
  end.

(** [pruneCollection]: Lock with a deferred Unlock around the removal from
    the observed set and the DEL of the key [c + ":" + "*"]. *)
Definition pruneCollection (c : string) (q : refreshableQueryCache)
  : outcome error refreshableQueryCache :=
  match sync.Lock (mu q) with
  | None => Blocked q
  | Some held =>
      let '(err, store') := redisCacheService.Del (c ++ ":" ++ "*") (store q) in
      Returned err
        {| mu := sync.Unlock held; store := store';
           observedCollections := observedCollections q ∖ {[c]}; wes := wes q |}
  end.

End refreshableQueryCache.

#[export] Instance refreshableQueryCache_QueryCache : QueryCache refreshableQueryCache :=
  {| cacheGet := refreshableQueryCache.Get; cacheSet := refreshableQueryCache.Set_ |}.

(** *** The dispatch goroutine of [serve], with the cache's callbacks *)

Definition runObserver (call : Observer * WebhookEvent) (q : refreshableQueryCache)
  : outcome unit refreshableQueryCache :=
  match call.1 with
  | pruneObserver c =>
      match refreshableQueryCache.pruneCollection c q with
      | Returned _ q' => Returned tt q'
      | Blocked q' => Blocked q'
      end
  | externalObserver _ => Returned tt q
  end.

Fixpoint runObservers (calls : list (Observer * WebhookEvent)) (q : refreshableQueryCache)
  : outcome unit refreshableQueryCache :=
  match calls with
  | [] => Returned tt q
  | call :: calls' =>
      match runObserver call q with
      | Returned _ q' => runObservers calls' q'
      | Blocked q' => Blocked q'
      end
  end.

Definition with_wes_mu (q : refreshableQueryCache) (m : sync.RWMutex) : refreshableQueryCache :=
  {| mu := mu q; store := store q; observedCollections := observedCollections q;
     wes := {| wes_mu := m; observes := observes (wes q) |} |}.

(** One batch [ex] received from [fluxOutput]: deduplicate, RLock, call the
    observers of every remaining event, RUnlock. *)
Definition dispatch (ex : list WebhookEvent) (q : refreshableQueryCache)
  : outcome unit refreshableQueryCache :=
  match sync.RLock (wes_mu (wes q)) with
  | None => Blocked q
  | Some held =>
      let q := with_wes_mu q held in
      match runObservers (dispatchCalls (observes (wes q)) ex) q with
      | Blocked q' => Blocked q'
      | Returned _ q' => Returned tt (with_wes_mu q' (sync.RUnlock (wes_mu (wes q'))))
      end
  end.

(* ===================================================================== *)
(** ** The client: the request path                                       *)
(* ===================================================================== *)

Definition ITEMS_MAX_LIMIT : Z := 1000.

Record URL := {
  Scheme : string;
  Host : string;
  Path : string;
  RawQuery : string
}.

(** The fields of [http.Request] that [Call] reads or writes, and the body it
    forwards untouched. *)
Record Request := {
  Method : string;
  ReqURL : option URL;               (* r.URL, nil or not *)
  ReqHeader : option http.Header;    (* r.Header, nil or not *)
  ReqHost : string;
  RequestURI : string;
  ReqBody : bytes
}.

Record Response := {
  StatusCode : Z;
  Body : io.Reader
}.

Record DirectusClient := {
  baseURL : URL;
  token : string
}.

Section Call.

(** The cache of the client, an implementation of [QueryCache]. *)
Context {Q : Type} `{!QueryCache Q}.

(** [d.client.Do]: the origin's response, or the transport's error. *)
Variable Do : Request -> result Response.

(** The URL and the request as [Call] has rewritten them when they reach
    the cache and the origin. *)
Definition prepareURL (d : DirectusClient) (u : URL) : URL :=
  {| Scheme := Scheme (baseURL d);
     Host := Host (baseURL d);
     Path := Path u;
     RawQuery := if String.eqb (RawQuery u) "" then
                   "limit=" ++ strconv.Itoa ITEMS_MAX_LIMIT
                 else RawQuery u |}.

Definition prepare (d : DirectusClient) (req : Request) (u : URL) : Request :=
  let header := default ∅ (ReqHeader req) in
  let header := http.Header_Set header "Authorization" ("Bearer " ++ token d) in
  let header := http.Header_Set header "Content-Type" "application/json" in
  {| Method := Method req;
     ReqURL := Some (prepareURL d u);
     ReqHeader := Some header;
     ReqHost := Host (baseURL d);
     RequestURI := "";
     ReqBody := ReqBody req |}.

Definition allowedMethod (m : string) : bool :=
  String.eqb m "GET" || String.eqb m "POST" || String.eqb m "PATCH"
  || String.eqb m "DELETE".

Definition Call (d : DirectusClient) (req : Request) (q : Q)
  : outcome (result Response) Q :=
  if negb (allowedMethod (Method req)) then Returned (Err "invalid method") q
  else
    match ReqURL req with
    | None => Returned (Err "url is required") q
    | Some u =>
        let req := prepare d req u in
        let rawQuery := RawQuery (prepareURL d u) in
        match strings.SplitN2 (Path u) "items/" with
        | [_; collection] =>
            match cacheGet collection rawQuery q with
            | Ok data =>
                Returned (Ok {| StatusCode := http.StatusOK; Body := data |}) q
            | Err _ =>
                match Do req with
                | Err err => Returned (Err err) q
                | Ok resp =>
                    if StatusCode resp =? http.StatusOK then
                      match cacheSet collection rawQuery (Body resp) q with
                      | Blocked q' => Blocked q'
                      | Returned (data, _) q' =>
                          (* the error of Set is logged; data is used as it is *)
                          Returned
                            (Ok {| StatusCode := StatusCode resp;
                                   Body := io.NewReader data |}) q'
                      end
                    else Returned (Ok resp) q
                end
            end
        | _ => Returned (Err "invalid url") q
        end
    end.

End Call.

(* ===================================================================== *)
(** ** Concrete inputs                                                    *)
(* ===================================================================== *)

Definition eventOf (event key collection payload : string) : WebhookEvent :=
  {| Event := event; Payload := list_byte_of_string payload; Key := key;
     Collection := collection |}.

(** A cache as [NewRefreshableQueryCache] returns it, over an empty Redis
    that answers ([up = true]) or does not. *)
Definition cacheOver (up : bool) : refreshableQueryCache :=
  NewRefreshableQueryCache
    {| r := {| redis.kv := ∅; redis.up := up |}; keyspace := "directus" |}
    NewWebhookEventServer.

Definition stored (c rq payload : string) (q : refreshableQueryCache)
  : refreshableQueryCache :=
  state_of (refreshableQueryCache.Set_ c rq (io.NewReader (list_byte_of_string payload)) q).

Definition localClient : DirectusClient :=
  {| baseURL := {| Scheme := "https"; Host := "localhost:8050"; Path := "";
                   RawQuery := "" |};
     token := "secret" |}.

Definition usersRequest (method : string) : Request :=
  {| Method := method;
     ReqURL := Some {| Scheme := ""; Host := ""; Path := "/items/users";
                       RawQuery := "limit=100" |};
     ReqHeader := None;
     ReqHost := "";
     RequestURI := "/items/users?limit=100";
     ReqBody := [] |}.

(** An origin that answers every request with 200 and the given body. *)
Definition originOK (body : string) (req : Request) : result Response :=
  Ok {| StatusCode := http.StatusOK; Body := io.NewReader (list_byte_of_string body) |}.

(** A decoder for the examples: an empty body is an error, any other body
    decodes to a fixed event. *)
Definition sampleDecode (body : bytes) : string + WebhookEvent :=
  match body with
  | [] => inl "EOF"
  | _ :: _ => inr (eventOf "update" "7" "orders" "null")
  end.

Definition ingest (method contentType body : string) : IngestRequest :=
  {| in_Method := method;
     in_Header := {["Content-Type" := [contentType]]};
     in_Body := list_byte_of_string body |}.

(* ===================================================================== *)
(** ** The options of the store                                          *)
(* ===================================================================== *)

(** [time.Duration] counts nanoseconds. *)
Module time.
Definition Second : Z := 1000000000.
Definition Minute : Z := 60 * Second.
End time.

Record RedisCacheServiceOption := {
  Keyspace : string;
  ExecTimeout : Z;
  CacheTTL : Z
}.

(** [applyDefault]: each of the three fields, if it is the zero value, gets its
    default. *)
Definition applyDefault (o : RedisCacheServiceOption) : RedisCacheServiceOption :=
  let o := if String.eqb (Keyspace o) "" then
             {| Keyspace := "directus"; ExecTimeout := ExecTimeout o; CacheTTL := CacheTTL o |}
           else o in
  let o := if ExecTimeout o =? 0 then
             {| Keyspace := Keyspace o; ExecTimeout := time.Second * 5; CacheTTL := CacheTTL o |}
           else o in
  if CacheTTL o =? 0 then
    {| Keyspace := Keyspace o; ExecTimeout := ExecTimeout o; CacheTTL := time.Minute * 10 |}
  else o.

(** The struct that [NewRedisCacheService] fills: the part of it that the
    operations of the model use, and the two durations. *)
Record redisCacheServiceValue := {
  service : redisCacheService;
  timeout : Z;
  ttl : Z
}.

Definition NewRedisCacheService (rdb : redis.Server) (option : RedisCacheServiceOption)
  : redisCacheServiceValue :=
  let option := applyDefault option in
  {| service := {| r := rdb; keyspace := Keyspace option |};
     timeout := ExecTimeout option;
     ttl := CacheTTL option |}.

(* ===================================================================== *)
(** ** The collection part of a key                                      *)
(* ===================================================================== *)

(** What [queryKey] puts before the colon. *)
Definition effectiveCollection (c : string) : string :=
  match strings.Split c "/" with
  | [collection; _] => collection
  | _ => c
  end.

(* ===================================================================== *)
(** ** Notions about the cache and the dispatch                          *)
(* ===================================================================== *)

(** The collections whose eviction callback is among the calls. *)
Definition prunedCollections (calls : list (Observer * WebhookEvent)) : gset string :=
  list_to_set
    (omap (fun call : Observer * WebhookEvent =>
             match call.1 with
             | pruneObserver c => Some c
             | externalObserver _ => None
             end) calls).

(** The three fields that identify the record change an event is about. *)
Definition triple (e : WebhookEvent) : string * string * string :=
  (Collection e, Event e, Key e).

(** An event whose event and key fields hold no colon. *)
Definition plain (e : WebhookEvent) : Prop :=
  strings.ContainsByte (Event e) ":" = false
  /\ strings.ContainsByte (Key e) ":" = false.

(** Every collection that is marked observed has a callback in the registry. *)
Definition subscribed (q : refreshableQueryCache) : Prop :=
  observedCollections q ⊆ dom (observes (wes q)).

(* ===================================================================== *)
(** ** Notions about the pipeline                                        *)
(* ===================================================================== *)

(** The events that are in the pipeline, the oldest first; the events that a
    schedule submits; and the bounds of the two channels, with no empty batch
    waiting. *)
Definition pending (p : flux.t) : list WebhookEvent :=
  concat (flux.outChan p) ++ flux.buf p ++ flux.inChan p.

Definition submitted (steps : list flux.step) : list WebhookEvent :=
  omap (fun st => match st with flux.Send we => Some we | _ => None end) steps.

Definition bounded (p : flux.t) : Prop :=
  (length (flux.inChan p) <= flux.capacity)%nat
  /\ (length (flux.outChan p) <= flux.capacity)%nat
  /\ Forall (fun ex => ex <> []) (flux.outChan p).

(* ===================================================================== *)
(** ** The client: constructor, query default and proxy                  *)
(* ===================================================================== *)

(** The request with another raw query. *)
Definition withRawQuery (req : Request) (rq : string) : Request :=
  {| Method := Method req;
     ReqURL := match ReqURL req with
               | Some u => Some {| Scheme := Scheme u; Host := Host u; Path := Path u;
                                   RawQuery := rq |}
               | None => None
               end;
     ReqHeader := ReqHeader req;
     ReqHost := ReqHost req;
     RequestURI := RequestURI req;
     ReqBody := ReqBody req |}.

(** The request with another method. *)
Definition withMethod (req : Request) (m : string) : Request :=
  {| Method := m;
     ReqURL := ReqURL req;
     ReqHeader := ReqHeader req;
     ReqHost := ReqHost req;
     RequestURI := RequestURI req;
     ReqBody := ReqBody req |}.

(** [strings.SplitN(s, sep, n)] for a separator that is not empty and
    [n >= 0]: at most [n] pieces, the last one the unsplit rest. *)
Fixpoint SplitN (s sep : string) (n : nat) : list string :=
  match n with
  | O => []
  | S n' =>
      match n' with
      | O => [s]
      | S _ =>
          match strings.Cut s sep with
          | Some (before, after) => before :: SplitN after sep n'
          | None => [s]
          end
      end
  end.

(** [strings.HasSuffix(s, "/")] and [s[:len(s)-1]]. *)
Definition HasSuffixSlash (s : string) : bool :=
  match strings.lastByte s with
  | Some a => Ascii.eqb a "/"
  | None => false
  end.

Fixpoint dropLast (s : string) : string :=
  match s with
  | EmptyString => EmptyString
  | String a s' =>
      match s' with
      | EmptyString => EmptyString
      | String _ _ => String a (dropLast s')
      end
  end.

Section NewDirectusClient.

(** [url.Parse] *)
Variable Parse : string -> result URL.

Definition NewDirectusClient (baseURL token : string) : result DirectusClient :=
  if String.eqb token "" then Err "token is required"
  else
    let baseURL := if HasSuffixSlash baseURL then dropLast baseURL else baseURL in
    match Parse baseURL with
    | Err err => Err err
    | Ok u => Ok {| baseURL := u; token := token |}
    end.

End NewDirectusClient.

(** What [Proxy] does with its [ResponseWriter]: [http.Error] with status
    500, or [WriteHeader] with the response's status followed by the copy of
    its headers and of its body. *)
Inductive proxied :=
| Failed (w : http.Written)
| Forwarded (resp : Response).

Section Proxy.

Context {Q : Type} `{!QueryCache Q}.
Variable Do : Request -> result Response.

(** The path as [Proxy] rewrites it: with [stripN + 2] pieces the last piece
    is the new path, with fewer the path stays. *)
Definition stripPath (stripN : nat) (path : string) : string :=
  let p := SplitN path "/" (stripN + 2) in
  if decide (length p = (stripN + 2)%nat) then ("/" ++ default "" (last p))%string
  else path.

(** The handler that [Proxy(stripN)] returns, on a request of the server
    (its URL [u] is set). *)
Definition Proxy (stripN : nat) (d : DirectusClient) (req : Request) (u : URL) (q : Q)
  : outcome proxied Q :=
  let u := {| Scheme := Scheme u; Host := Host u;
              Path := stripPath stripN (Path u); RawQuery := RawQuery u |} in
  let req := {| Method := Method req; ReqURL := Some u; ReqHeader := ReqHeader req;
                ReqHost := ReqHost req; RequestURI := RequestURI req;
                ReqBody := ReqBody req |} in
  match Call Do d req q with
  | Blocked q' => Blocked q'
  | Returned (Err err) q' =>
      Returned (Failed (http.Error err http.StatusInternalServerError)) q'
  | Returned (Ok resp) q' => Returned (Forwarded resp) q'
  end.

End Proxy.

(** The pieces [segs] and the rest [rest] with a slash between them. *)
Fixpoint joinPath (segs : list string) (rest : string) : string :=
  match segs with
  | [] => rest
  | seg :: segs' => seg ++ String "/" (joinPath segs' rest)
  end.

(* ===================================================================== *)
(** ** The client: structured queries                                    *)
(* ===================================================================== *)

(** [strings.Join(elems, sep)] *)
Fixpoint Join (elems : list string) (sep : string) : string :=
  match elems with
  | [] => EmptyString
  | x :: rest =>
      match rest with
      | [] => x
      | _ :: _ => x ++ sep ++ Join rest sep
      end
  end.

(** [url.Values] with its [Get] (the first value, or the empty string) and
    [Set] (the key gets exactly this value). *)
Module url.

Abbreviation Values := (gmap string (list string)).

Definition Get (v : Values) (key : string) : string :=
  match v !! key with
  | Some (x :: _) => x
  | _ => EmptyString
  end.

Definition Set_ (v : Values) (key value : string) : Values := <[key := [value]]> v.

End url.

(** [strconv.Itoa] and [strconv.Atoi] on the 64-bit [int]. *)
Module atoi.

Definition maxUint64 : Z := 2 ^ 64 - 1.
Definition cutoff : Z := maxUint64 / 10 + 1.

(** [strconv.FormatInt(i, 10)]: a minus sign for a negative number, then
    the digits of its magnitude. *)
Definition Itoa (i : Z) : string :=
  if i <? 0 then String "-" (strconv.formatBits 64 (- i) 10 EmptyString)
  else strconv.formatBits 64 i 10 EmptyString.

Inductive scan := Value (n : Z) | Syntax | Range.

(** The loop of [ParseUint] for base 10 and 64 bits: it stops at the first
    byte that is no digit, or where the number no longer fits. *)
Fixpoint digits (n : Z) (s : string) : scan :=
  match s with
  | EmptyString => Value n
  | String c s' =>
      let c := Z.of_N (N_of_ascii c) in
      if (48 <=? c) && (c <=? 57) then
        if n >=? cutoff then Range
        else
          let n1 := n * 10 + (c - 48) in
          if n1 >? maxUint64 then Range else digits n1 s'
      else Syntax
  end.

Section Atoi.

(** [strconv.Quote], which the text of a [*NumError] uses. *)
Variable Quote : string -> string.

Definition syntaxError (s : string) : string :=
  "strconv.Atoi: parsing " ++ Quote s ++ ": invalid syntax".

Definition rangeError (s : string) : string :=
  "strconv.Atoi: parsing " ++ Quote s ++ ": value out of range".

Definition Atoi (s : string) : result Z :=
  match s with
  | EmptyString => Err (syntaxError s)
  | String c rest =>
      let neg := Ascii.eqb c "-" in
      let body := if Ascii.eqb c "+" || neg then rest else s in
      match body with
      | EmptyString => Err (syntaxError s)
      | String _ _ =>
          match digits 0 body with
          | Syntax => Err (syntaxError s)
          | Range => Err (rangeError s)
          | Value un =>
              if negb neg && (un >=? 2 ^ 63) then Err (rangeError s)
              else if neg && (un >? 2 ^ 63) then Err (rangeError s)
              else Ok (if neg then - un else un)
          end
      end
  end.

End Atoi.

End atoi.

Module MetaField.

Definition MetaQueryAll : string := "*".
Definition MetaQueryTotalCount : string := "total_count".
Definition MetaQueryFilterCount : string := "filter_count".

(** [MetaField.Unmarshal] (on a pointer): the value it leaves in the
    receiver, or the error. *)
Definition Unmarshal (s : string) : result string :=
  if String.eqb s MetaQueryAll then Ok MetaQueryAll
  else if String.eqb s MetaQueryTotalCount then Ok MetaQueryTotalCount
  else if String.eqb s MetaQueryFilterCount then Ok MetaQueryFilterCount
  else Err "invalid meta field".

End MetaField.

Section Query.

(** The filters that are not nil, [map[string]map[FilterOperator]any], with
    encoding/json on them: [json.Marshal] of such a filter, and
    [json.Unmarshal] into a nil filter, which says what filter it leaves
    ([None] when it leaves nil, as for the text null). *)
Variable FilterT : Type.
Variable Marshal : FilterT -> result string.
Variable Unmarshal : string -> result (option FilterT).

(** [strconv.Quote] and [url.Values.Encode] *)
Variable Quote : string -> string.
Variable Encode : url.Values -> string.

Record DirectusQuery := {
  Fields : list string;
  Filter : option FilterT;
  Sort : list string;
  Limit : Z;
  Offset : Z;
  offsetIsSet : bool;
  Page : Z;
  pageIsSet : bool;
  Meta : option string
}.

Definition zeroQuery : DirectusQuery :=
  {| Fields := []; Filter := None; Sort := []; Limit := 0; Offset := 0;
     offsetIsSet := false; Page := 0; pageIsSet := false; Meta := None |}.

Definition validate (d : DirectusQuery) : error :=
  if Limit d >? ITEMS_MAX_LIMIT then Some "limit must be less than 100"
  else
    match Filter d with
    | None => Some "limit must be set if filter is not set"
    | Some _ =>
        if offsetIsSet d && pageIsSet d then Some "cannot specify both offset and page"
        else None
    end.

Definition with_Limit (d : DirectusQuery) (limit : Z) : DirectusQuery :=
  {| Fields := Fields d; Filter := Filter d; Sort := Sort d; Limit := limit;
     Offset := Offset d; offsetIsSet := offsetIsSet d; Page := Page d;
     pageIsSet := pageIsSet d; Meta := Meta d |}.

(** [BuildQuery]: the values, and the receiver as the call leaves it (a zero
    limit becomes the maximum). *)
Definition BuildQuery (d : DirectusQuery) : result url.Values * DirectusQuery :=
  let v : url.Values := ∅ in
  let v := match Fields d with
           | [] => v
           | _ :: _ => url.Set_ v "fields" (Join (Fields d) ",")
           end in
  match match Filter d with
        | None => Ok v
        | Some f =>
            match Marshal f with
            | Err err => Err err
            | Ok b => Ok (url.Set_ v "filter" b)
            end
        end with
  | Err err => (Err err, d)
  | Ok v =>
      let v := match Sort d with
               | [] => v
               | _ :: _ => url.Set_ v "sort" (Join (Sort d) ",")
               end in
      let d := if Limit d =? 0 then with_Limit d ITEMS_MAX_LIMIT else d in
      let v := url.Set_ v "limit" (atoi.Itoa (Limit d)) in
      let v := if offsetIsSet d then url.Set_ v "offset" (atoi.Itoa (Offset d)) else v in
      let v := if pageIsSet d then url.Set_ v "page" (atoi.Itoa (Page d)) else v in
      let v := match Meta d with
               | Some m => url.Set_ v "meta" m
               | None => v
               end in
      (Ok v, d)
  end.

(** [ParseQuery], statement by statement. *)
Definition ParseQuery (q : url.Values) : result DirectusQuery :=
  let fields := url.Get q "fields" in
  let dFields := if String.eqb fields "" then [] else strings.Split fields "," in
  let filter := url.Get q "filter" in
  match (if String.eqb filter "" then Ok None else Unmarshal filter) with
  | Err err => Err err
  | Ok dFilter =>
      let sort := url.Get q "sort" in
      let dSort := if String.eqb sort "" then [] else strings.Split sort "," in
      let limit := url.Get q "limit" in
      match (if String.eqb limit "" then Ok ITEMS_MAX_LIMIT else atoi.Atoi Quote limit) with
      | Err err => Err err
      | Ok dLimit =>
          let offset := url.Get q "offset" in
          match (if String.eqb offset "" then Ok (0, false)
                 else match atoi.Atoi Quote offset with
                      | Err err => Err err
                      | Ok i => Ok (i, true)
                      end) with
          | Err err => Err err
          | Ok (dOffset, dOffsetIsSet) =>
              let page := url.Get q "page" in
              match (if String.eqb page "" then Ok (0, false)
                     else match atoi.Atoi Quote page with
                          | Err err => Err err
                          | Ok i => Ok (i, true)
                          end) with
              | Err err => Err err
              | Ok (dPage, dPageIsSet) =>
                  let meta := url.Get q "meta" in
                  match (if String.eqb meta "" then Ok None
                         else match MetaField.Unmarshal meta with
                              | Err err => Err err
                              | Ok m => Ok (Some m)
                              end) with
                  | Err err => Err err
                  | Ok dMeta =>
                      let d := {| Fields := dFields; Filter := dFilter; Sort := dSort;
                                  Limit := dLimit; Offset := dOffset;
                                  offsetIsSet := dOffsetIsSet; Page := dPage;
                                  pageIsSet := dPageIsSet; Meta := dMeta |} in
                      match validate d with
                      | Some err => Err err
                      | None => Ok d
                      end
                  end
              end
          end
      end
  end.

Context {Q : Type} `{!QueryCache Q}.
Variable Do : Request -> result Response.

(** [DirectusClient.Query]; [input] is what the reader yields, if there is a
    reader. *)
Definition Query (d : DirectusClient) (method collection : string)
    (query : DirectusQuery) (input : option bytes) (q : Q)
  : outcome (result Response) Q :=
  match validate query with
  | Some err => Returned (Err err) q
  | None =>
      match BuildQuery query with
      | (Err err, _) => Returned (Err err) q
      | (Ok v, _) =>
          let u := {| Scheme := Scheme (baseURL d); Host := Host (baseURL d);
                      Path := "/items/" ++ collection; RawQuery := Encode v |} in
          let req := {| Method := method; ReqURL := Some u; ReqHeader := None;
                        ReqHost := ""; RequestURI := "";
                        ReqBody := default [] input |} in
          Call Do d req q
      end
  end.

End Query.

Arguments Fields {FilterT} _.
Arguments Filter {FilterT} _.
Arguments Sort {FilterT} _.
Arguments Limit {FilterT} _.
Arguments Offset {FilterT} _.
Arguments offsetIsSet {FilterT} _.
Arguments Page {FilterT} _.
Arguments pageIsSet {FilterT} _.
Arguments Meta {FilterT} _.
Arguments validate {FilterT} _.
Arguments with_Limit {FilterT} _ _.



(* ===================================================================== *)
(** ** More concrete inputs                                              *)
(* ===================================================================== *)


(** Origins that answer 404, and 200 with a body whose reading fails. *)
Definition originNotFound (req : Request) : result Response :=
  Ok {| StatusCode := 404; Body := io.NewReader (list_byte_of_string "not found") |}.

Definition originTruncated (req : Request) : result Response :=
  Ok {| StatusCode := 200;
        Body := {| io.content := list_byte_of_string "par";
                   io.failure := Some "unexpected EOF" |} |}.

(** A request as the benchmark route hands it to [Proxy(2)]. *)
Definition forwardRequest (method : string) : Request :=
  {| Method := method; ReqURL := None; ReqHeader := None; ReqHost := "localhost:9090";
     RequestURI := "/forward/aaafff/items/users?limit=100"; ReqBody := [] |}.

Definition forwardURL : URL :=
  {| Scheme := ""; Host := ""; Path := "/forward/aaafff/items/users";
     RawQuery := "limit=100" |}.

(** A [url.Parse] that knows one address. *)
Definition parseLocal (s : string) : result URL :=
  if String.eqb s "https://localhost:8050" then
    Ok {| Scheme := "https"; Host := "localhost:8050"; Path := ""; RawQuery := "" |}
  else Err "parse error".

(** Filters kept as their JSON text, with the codecs that go with that. *)
Definition sampleMarshal (f : string) : result string := Ok f.
Definition sampleUnmarshal (s : string) : result (option string) :=
  if String.eqb s "null" then Ok None else Ok (Some s).
Definition sampleQuote (s : string) : string := dquote ++ s ++ dquote.
Definition sampleEncode (v : url.Values) : string :=
  "filter=" ++ url.Get v "filter" ++ "&limit=" ++ url.Get v "limit".

Definition emailQuery : DirectusQuery string :=
  {| Fields := ["id"; "email"]; Filter := Some "{}"; Sort := [];
     Limit := 0; Offset := 0; offsetIsSet := false; Page := 0; pageIsSet := false;
     Meta := None |}.

(* ===================================================================== *)
(** ** Key derivation                                                     *)
(* ===================================================================== *)

Lemma Split_without_sep (s : string) (sep : ascii) :
  strings.ContainsByte s sep = false -> strings.Split s sep = [s].
Proof.
  induction s as [|a s IH]; simpl; [done|].
  intros [Ha Hs]%orb_false_iff. rewrite Ha, (IH Hs). done.
Qed.

Lemma Split_at_sep (c s : string) (sep : ascii) :
  strings.ContainsByte c sep = false ->
  strings.Split (c ++ String sep s) sep = c :: strings.Split s sep.
Proof.
  induction c as [|a c IH]; simpl.
  - intros _. by rewrite Ascii.eqb_refl.
  - intros [Ha Hc]%orb_false_iff. rewrite Ha, (IH Hc). done.
Qed.

Lemma queryKey_plain (c q : string) :
  strings.ContainsByte c "/" = false ->
  queryKey c q = (c ++ ":" ++ strconv.FormatUint (xxhash.Sum64String q) 16)%string.
Proof. intros Hc. unfold queryKey. by rewrite (Split_without_sep _ _ Hc). Qed.

(** The implementation of xxHash agrees with the published test vectors,
    among them one that is longer than a stripe. *)
Example Sum64_vectors :
  xxhash.Sum64String "" = 0xef46db3751d8e999
  /\ xxhash.Sum64String "a" = 0xd24ec4f1a98c6e5b
  /\ xxhash.Sum64String "abc" = 0x44bc2cf5ad770999
  /\ xxhash.Sum64String
       "Call me Ishmael. Some years ago--never mind how long precisely-"
     = 0x02a2e85470d6fd96.
Proof. vm_compute. done. Qed.

(** C3, as the code has it: for a collection [c] and an id [s] that contain no
    slash, the key of the single-record path [c/s], whatever the query, is
    the key of [c] with the query [{"id": {"_eq": s}}] (the id unquoted, a
    space after each colon), which is the text [queryKey] hashes. *)
Theorem queryKey_id_form (c s q : string) :
  strings.ContainsByte c "/" = false ->
  strings.ContainsByte s "/" = false ->
  queryKey (c ++ "/" ++ s) q = queryKey c (idFilter s).
Proof.
  intros Hc Hs. rewrite (queryKey_plain c _ Hc).
  unfold queryKey. change ("/" ++ s)%string with (String "/" s).
  rewrite (Split_at_sep _ _ _ Hc), (Split_without_sep _ _ Hs). done.
Qed.

Lemma queryKey_id_form_users_42 :
  queryKey "users/42" "" = queryKey "users" (idFilter "42").
Proof. apply (queryKey_id_form "users" "42" ""); reflexivity. Defined.

(** C3, as the specification has it, fails: the key of ["users/42"] is not
    the key of ["users"] with the compact, quoted filter. *)
Lemma queryKey_id_form_is_not_the_spec_filter :
  queryKey "users/42" "" <> queryKey "users" (specIdFilter "42").
Proof. vm_compute. discriminate. Qed.

(** A path with more than one slash is not rewritten at all. *)
Example queryKey_two_slashes :
  queryKey "users/42/avatar" "x" =
    ("users/42/avatar:" ++ strconv.FormatUint (xxhash.Sum64String "x") 16)%string.
Proof. vm_compute. done. Qed.

(* ===================================================================== *)
(** ** Locks                                                              *)
(* ===================================================================== *)

Lemma Lock_free (m : sync.RWMutex) :
  sync.free m -> sync.Lock m = Some {| sync.writer := true; sync.readers := 0 |}.
Proof. destruct m as [w n]. intros [Hw Hn]; simpl in *; subst. done. Qed.

Lemma Lock_held (m : sync.RWMutex) :
  sync.writer m = true \/ sync.readers m <> 0%nat -> sync.Lock m = None.
Proof. destruct m as [[] [|n]]; simpl; intros [H|H]; done. Qed.

Lemma Unlock_after_Lock (m : sync.RWMutex) :
  sync.free m -> sync.Unlock {| sync.writer := true; sync.readers := 0 |} = m.
Proof. destruct m as [w n]. intros [Hw Hn]; simpl in *; subst. done. Qed.

(* ===================================================================== *)
(** ** The observer registry                                              *)
(* ===================================================================== *)

Section Registry_facts.

Context {F : Type}.
Implicit Types (w : WebhookEventServer F) (f : F) (k : string).

Lemma AddObserver_fresh w k f :
  sync.free (wes_mu w) -> observes w !! k = None ->
  AddObserver k f w =
    Returned None {| wes_mu := wes_mu w; observes := <[k := f]> (observes w) |}.
Proof.
  intros Hm Hk. unfold AddObserver.
  by rewrite (Lock_free _ Hm), Hk, (Unlock_after_Lock _ Hm).
Qed.

Lemma AddObserver_taken w k f f0 :
  sync.free (wes_mu w) -> observes w !! k = Some f0 ->
  AddObserver k f w = Returned (Some "collection already exists") w.
Proof.
  intros Hm Hk. unfold AddObserver.
  rewrite (Lock_free _ Hm), Hk, (Unlock_after_Lock _ Hm). by destruct w.
Qed.

Lemma AddObserver_returns w k f :
  sync.free (wes_mu w) ->
  exists err w', AddObserver k f w = Returned err w' /\ wes_mu w' = wes_mu w.
Proof.
  intros Hm. destruct (observes w !! k) as [f0|] eqn:Hk.
  - rewrite (AddObserver_taken _ _ _ _ Hm Hk). eauto.
  - rewrite (AddObserver_fresh _ _ _ Hm Hk). eauto.
Qed.

Lemma AddObserver_parks w k f :
  sync.writer (wes_mu w) = true \/ sync.readers (wes_mu w) <> 0%nat ->
  AddObserver k f w = Blocked w.
Proof. intros Hm. unfold AddObserver. by rewrite (Lock_held _ Hm). Qed.

Lemma flushEvents_one (e : WebhookEvent) : flushEvents [e] = [e].
Proof.
  unfold flushEvents, uniqueEvents. simpl.
  by rewrite insert_empty, map_to_list_singleton.
Qed.

Lemma dispatchCalls_one (obs : gmap string F) (e : WebhookEvent) :
  dispatchCalls obs [e] = invocations obs e.
Proof. unfold dispatchCalls. rewrite flushEvents_one. simpl. apply app_nil_r. Qed.

Lemma registered_fires (obs : gmap string F) k f (e : WebhookEvent) :
  obs !! k = Some f -> Collection e = k \/ k = "*" ->
  (f, e) ∈ dispatchCalls obs [e].
Proof.
  intros Hk He. rewrite dispatchCalls_one. unfold invocations.
  apply elem_of_app. destruct He as [->| ->]; rewrite Hk.
  - left. apply list_elem_of_singleton. done.
  - right. apply list_elem_of_singleton. done.
Qed.

End Registry_facts.

(** C7, where the code departs from it.  On a registry whose lock nobody
    holds, [AddObserver] on a key without a callback (the wildcard key is a
    key like any other) registers it and reports no error; on a key that has
    one it reports an error and leaves the registry as it was, so that the
    first callback is the one the next dispatched event of that collection
    reaches; and [RemoveObserver] leaves no registration under the key,
    touches no other key, and has no error to report, whether or not the key
    was there.  But [RemoveObserver] returns with its read lock still held, so
    in the registry it leaves [AddObserver] registers nothing: on every key,
    the removed one included, which has no callback, it parks at its [Lock]
    and returns neither success nor error. *)
Theorem AddObserver_parks_after_RemoveObserver
    {F : Type} (w : WebhookEventServer F) (k : string) (f : F)
    (Hfree : sync.free (wes_mu w)) :
  (observes w !! k = None ->
     AddObserver k f w =
       Returned None {| wes_mu := wes_mu w; observes := <[k := f]> (observes w) |})
  /\ (forall f0, observes w !! k = Some f0 ->
        AddObserver k f w = Returned (Some "collection already exists") w
        /\ forall e, Collection e = k \/ k = "*" ->
                     (f0, e) ∈ dispatchCalls (observes w) [e])
  /\ (exists w', RemoveObserver k w = Returned tt w'
                 /\ observes w' !! k = None
                 /\ (forall k', k' <> k -> observes w' !! k' = observes w !! k')
                 /\ sync.readers (wes_mu w') = 1%nat
                 /\ AddObserver k f w' = Blocked w'
                 /\ forall k2 f2, AddObserver k2 f2 w' = Blocked w').
Proof.
  split; [by apply AddObserver_fresh|]. split.
  - intros f0 Hk. split; [by eapply AddObserver_taken|].
    intros e He. by eapply registered_fires.
  - unfold RemoveObserver, sync.RLock. destruct Hfree as [-> Hr].
    eexists. split; [reflexivity|]. simpl. rewrite Hr.
    split; [apply lookup_delete_eq|].
    split; [intros k' Hk'; by apply lookup_delete_ne|].
    split; [reflexivity|].
    split; [|intros k2 f2]; apply AddObserver_parks; simpl; by right.
Qed.

Lemma AddObserver_users_parks_after_RemoveObserver :
  exists w',
    RemoveObserver "users" (NewWebhookEventServer (F := nat)) = Returned tt w'
    /\ observes w' !! "users" = None
    /\ (forall k', k' <> "users" ->
          observes w' !! k' = observes (NewWebhookEventServer (F := nat)) !! k')
    /\ sync.readers (wes_mu w') = 1%nat
    /\ AddObserver "users" 1%nat w' = Blocked w'
    /\ forall k2 f2, AddObserver k2 f2 w' = Blocked w'.
Proof.
  apply (proj2 (proj2 (AddObserver_parks_after_RemoveObserver
                         (NewWebhookEventServer (F := nat)) "users" 1%nat
                         (conj eq_refl eq_refl)))).
Defined.

(** On the new registry the first registration goes through. *)
Example first_registration_accepted :
  AddObserver "users" 1%nat (NewWebhookEventServer (F := nat))
  = Returned None {| wes_mu := sync.unlocked; observes := {["users" := 1%nat]} |}.
Proof. reflexivity. Qed.

(** A second registration under the same key is refused, and the first
    callback is the one that an event of the collection reaches. *)
Example second_registration_refused :
  forall w1,
    AddObserver "users" 1%nat (NewWebhookEventServer (F := nat)) = Returned None w1 ->
    AddObserver "users" 2%nat w1 = Returned (Some "collection already exists") w1
    /\ dispatchCalls (observes w1) [eventOf "update" "7" "users" "null"]
       = [(1%nat, eventOf "update" "7" "users" "null")].
Proof.
  intros w1 [= <-]. split; [reflexivity|].
  rewrite dispatchCalls_one. by vm_compute.
Qed.

(* ===================================================================== *)
(** ** The refreshable cache                                              *)
(* ===================================================================== *)

Lemma Set_returns (c rq : string) (p : bytes) (q : refreshableQueryCache) :
  redis.up (r (store q)) = true ->
  sync.free (mu q) ->
  sync.free (wes_mu (wes q)) ->
  exists q',
    refreshableQueryCache.Set_ c rq (io.NewReader p) q = Returned (p, None) q'
    /\ redis.kv (r (store q')) =
         <[(keyspace (store q) ++ ":" ++ queryKey c rq)%string := p]>
           (redis.kv (r (store q)))
    /\ redis.up (r (store q')) = true
    /\ keyspace (store q') = keyspace (store q).
Proof.
  intros Hup Hmu Hwes.
  unfold refreshableQueryCache.Set_, redisCacheService.Set_, redis.SET. simpl.
  rewrite Hup. simpl. rewrite (Lock_free _ Hmu).
  case_decide as Hobs.
  - eexists. split; [reflexivity|]. simpl. done.
  - simpl.
    destruct (AddObserver_returns (wes q) c (pruneObserver c) Hwes)
      as (err & wes' & -> & _).
    eexists. split; [reflexivity|]. simpl. done.
Qed.


(** C5, where the code departs from it.  From a cache over a store that
    answers, with its mutex and the registry's lock free and the collection
    [c] not yet observed (a new cache is such a cache), the first and the
    second [Set] of the collection return the bytes they read and no error,
    and [Get] then returns the same bytes.  But the second [Set] returns with
    the mutex still locked, and from then on no [Set] returns anything,
    whatever the collection, the query and the payload: it writes the payload
    to the store, where [Get] finds it, and parks at the mutex. *)
Theorem Set_parks_after_the_second_Set
    (c rq1 rq2 : string) (p1 p2 : bytes) (q : refreshableQueryCache)
    (Hup : redis.up (r (store q)) = true)
    (Hmu : sync.free (mu q))
    (Hwes : sync.free (wes_mu (wes q)))
    (Hnew : c ∉ observedCollections q) :
  exists q1 q2,
    refreshableQueryCache.Set_ c rq1 (io.NewReader p1) q = Returned (p1, None) q1
    /\ refreshableQueryCache.Get c rq1 q1 = Ok (io.NewReader p1)
    /\ refreshableQueryCache.Set_ c rq2 (io.NewReader p2) q1 = Returned (p2, None) q2
    /\ refreshableQueryCache.Get c rq2 q2 = Ok (io.NewReader p2)
    /\ forall c3 rq3 p3, exists q3,
         refreshableQueryCache.Set_ c3 rq3 (io.NewReader p3) q2 = Blocked q3
         /\ refreshableQueryCache.Get c3 rq3 q3 = Ok (io.NewReader p3).
Proof.
  destruct (AddObserver_returns (wes q) c (pruneObserver c) Hwes)
    as (err & wes' & HAdd & _).
  assert (sync.Unlock {| sync.writer := true; sync.readers := 0 |} = sync.unlocked)
    as HUnlock by reflexivity.
  eexists _, _. split; [|split; [|split; [|split]]].
  - unfold refreshableQueryCache.Set_, redisCacheService.Set_, redis.SET. simpl.
    rewrite Hup. simpl. rewrite (Lock_free _ Hmu), decide_False by done.
    simpl. rewrite HAdd. reflexivity.
  - unfold refreshableQueryCache.Get, redisCacheService.Get, redis.GET. simpl.
    by rewrite lookup_insert_eq.
  - unfold refreshableQueryCache.Set_, redisCacheService.Set_, redis.SET. simpl.
    rewrite decide_True by set_solver. reflexivity.
  - unfold refreshableQueryCache.Get, redisCacheService.Get, redis.GET. simpl.
    by rewrite lookup_insert_eq.
  - intros c3 rq3 p3. eexists. split.
    + unfold refreshableQueryCache.Set_, redisCacheService.Set_, redis.SET. simpl.
      reflexivity.
    + unfold refreshableQueryCache.Get, redisCacheService.Get, redis.GET. simpl.
      by rewrite lookup_insert_eq.
Qed.

Lemma third_Set_of_users_parks :
  exists q1 q2,
    refreshableQueryCache.Set_ "users" "a" (io.NewReader (list_byte_of_string "one"))
      (cacheOver true)
    = Returned (list_byte_of_string "one", None) q1
    /\ refreshableQueryCache.Get "users" "a" q1
       = Ok (io.NewReader (list_byte_of_string "one"))
    /\ refreshableQueryCache.Set_ "users" "b" (io.NewReader (list_byte_of_string "two")) q1
       = Returned (list_byte_of_string "two", None) q2
    /\ refreshableQueryCache.Get "users" "b" q2
       = Ok (io.NewReader (list_byte_of_string "two"))
    /\ forall c3 rq3 p3, exists q3,
         refreshableQueryCache.Set_ c3 rq3 (io.NewReader p3) q2 = Blocked q3
         /\ refreshableQueryCache.Get c3 rq3 q3 = Ok (io.NewReader p3).
Proof.
  apply (Set_parks_after_the_second_Set "users" "a" "b"
           (list_byte_of_string "one") (list_byte_of_string "two") (cacheOver true)).
  - reflexivity.
  - split; reflexivity.
  - split; reflexivity.
  - apply (bool_decide_unpack _). vm_compute. exact I.
Defined.

(** The null-object cache: a miss on every Get, and Set hands back what it
    read. *)
Lemma noop_cache (c rq : string) (data : io.Reader) :
  cacheGet c rq tt = Err "get item from noop cache"
  /\ cacheSet c rq data tt = Returned (io.content data, io.failure data) tt.
Proof. done. Qed.

(** C9, where the code departs from it: [Set] on a collection that is
    already observed returns with the cache's mutex still write-locked, after
    which every [Set] and every [pruneCollection] parks; and
    [RemoveObserver] returns with one more reader on the registry's lock,
    after which every [AddObserver] parks. *)
Theorem Set_and_RemoveObserver_keep_their_locks
    (c rq : string) (p : bytes) (q : refreshableQueryCache)
    (w : WebhookEventServer Observer) (k : string)
    (Hup : redis.up (r (store q)) = true)
    (Hmu : sync.free (mu q))
    (Hseen : c ∈ observedCollections q)
    (Hw : sync.writer (wes_mu w) = false) :
  (exists q',
     refreshableQueryCache.Set_ c rq (io.NewReader p) q = Returned (p, None) q'
     /\ mu q' = {| sync.writer := true; sync.readers := 0 |}
     /\ (forall c2 rq2 p2, exists q'',
           refreshableQueryCache.Set_ c2 rq2 (io.NewReader p2) q' = Blocked q'')
     /\ (forall c2, refreshableQueryCache.pruneCollection c2 q' = Blocked q'))
  /\ (exists w',
        RemoveObserver k w = Returned tt w'
        /\ sync.readers (wes_mu w') = S (sync.readers (wes_mu w))
        /\ forall k2 f, AddObserver k2 f w' = Blocked w').
Proof.
  split.
  - unfold refreshableQueryCache.Set_, redisCacheService.Set_, redis.SET. simpl.
    rewrite Hup. simpl. rewrite (Lock_free _ Hmu).
    rewrite decide_True by done.
    eexists. split; [reflexivity|]. split; [reflexivity|]. split.
    + intros c2 rq2 p2.
      unfold refreshableQueryCache.Set_, redisCacheService.Set_, redis.SET. simpl.
      eauto.
    + intros c2. reflexivity.
  - unfold RemoveObserver, sync.RLock. rewrite Hw.
    eexists. split; [reflexivity|]. split; [reflexivity|].
    intros k2 f. apply AddObserver_parks. simpl. right. done.
Qed.

Lemma second_Set_keeps_the_lock :
  (exists q',
     refreshableQueryCache.Set_ "users" "b" (io.NewReader (list_byte_of_string "two"))
       (stored "users" "a" "one" (cacheOver true))
     = Returned (list_byte_of_string "two", None) q'
     /\ mu q' = {| sync.writer := true; sync.readers := 0 |}
     /\ (forall c2 rq2 p2, exists q'',
           refreshableQueryCache.Set_ c2 rq2 (io.NewReader p2) q' = Blocked q'')
     /\ (forall c2, refreshableQueryCache.pruneCollection c2 q' = Blocked q'))
  /\ (exists w',
        RemoveObserver "users" (NewWebhookEventServer (F := Observer)) = Returned tt w'
        /\ sync.readers (wes_mu w') = 1%nat
        /\ forall k2 f, AddObserver k2 f w' = Blocked w').
Proof.
  apply (Set_and_RemoveObserver_keep_their_locks
           "users" "b" (list_byte_of_string "two")
           (stored "users" "a" "one" (cacheOver true))
           NewWebhookEventServer "users").
  - reflexivity.
  - split; reflexivity.
  - apply (bool_decide_unpack _). vm_compute. exact I.
  - reflexivity.
Defined.

(* ===================================================================== *)
(** ** Eviction                                                           *)
(* ===================================================================== *)

Lemma lastByte_app (s t : string) :
  t <> EmptyString -> strings.lastByte (s ++ t) = strings.lastByte t.
Proof.
  intros Ht. induction s as [|a s IH]; simpl; [done|].
  destruct (s ++ t)%string eqn:E; [|done].
  destruct s; [by destruct Ht|discriminate].
Qed.

Lemma lastByte_Some_nonempty (s : string) (a : ascii) :
  strings.lastByte s = Some a -> s <> EmptyString.
Proof. by destruct s. Qed.

Lemma formatBits_S (fuel : nat) (x base : Z) (acc : string) :
  strconv.formatBits (S fuel) x base acc =
    if x / base =? 0 then String (strconv.digit (x mod base)) acc
    else strconv.formatBits fuel (x / base) base (String (strconv.digit (x mod base)) acc).
Proof. reflexivity. Qed.

Lemma formatBits_last (fuel : nat) (x base : Z) (acc : string) :
  acc <> EmptyString ->
  strings.lastByte (strconv.formatBits fuel x base acc) = strings.lastByte acc.
Proof.
  revert x acc. induction fuel as [|fuel IH]; intros x acc Hacc; [done|].
  rewrite formatBits_S.
  assert (strings.lastByte (String (strconv.digit (x mod base)) acc)
          = strings.lastByte acc) as Hd by (by destruct acc).
  destruct (x / base =? 0); [done|]. by rewrite IH.
Qed.

(** The last digit that [FormatUint] writes is the digit of the units. *)
Lemma FormatUint_last (x base : Z) :
  strings.lastByte (strconv.FormatUint x base) = Some (strconv.digit (x mod base)).
Proof.
  unfold strconv.FormatUint. rewrite formatBits_S.
  destruct (x / base =? 0); [done|]. by rewrite formatBits_last.
Qed.

Lemma digit_not_star (x : Z) : strconv.digit (x mod 16) <> "*"%char.
Proof.
  pose proof (Z.mod_pos_bound x 16 eq_refl) as Hd.
  assert (Hcases : Forall (fun d => strconv.digit d <> "*"%char)
                     (Z.of_nat <$> seq 0 16)).
  { repeat constructor; by vm_compute. }
  eapply Forall_forall in Hcases; [exact Hcases|].
  apply list_elem_of_fmap. exists (Z.to_nat (x mod 16)). split; [lia|].
  apply elem_of_seq. lia.
Qed.

Lemma queryKey_shape (c q : string) :
  exists c' h, queryKey c q = (c' ++ ":" ++ strconv.FormatUint h 16)%string.
Proof.
  unfold queryKey.
  destruct (strings.Split c "/") as [|a [|b [|? ?]]]; eauto.
Qed.

(** No derived key is the key that [pruneCollection] asks Redis to delete:
    a derived key ends in a hexadecimal digit, the other in a star. *)
Lemma queryKey_is_no_pattern (ks c q c' : string) :
  (ks ++ ":" ++ queryKey c q)%string <> (ks ++ ":" ++ c' ++ ":" ++ "*")%string.
Proof.
  destruct (queryKey_shape c q) as (c0 & h & ->).
  intros Heq. apply (f_equal strings.lastByte) in Heq.
  pose proof (FormatUint_last h 16) as Hl.
  pose proof (lastByte_Some_nonempty _ _ Hl) as Hne.
  rewrite !lastByte_app in Heq; try done.
  - rewrite Hl in Heq. injection Heq as Heq. by apply digit_not_star in Heq.
  - by destruct c'.
  - by destruct c0.
Qed.

Lemma pruneCollection_keeps (c' : string) (q : refreshableQueryCache) (c rq : string) :
  refreshableQueryCache.Get c rq (state_of (refreshableQueryCache.pruneCollection c' q))
  = refreshableQueryCache.Get c rq q.
Proof.
  unfold refreshableQueryCache.pruneCollection.
  destruct (sync.Lock (mu q)) as [held|]; [|done].
  unfold refreshableQueryCache.Get, redisCacheService.Get, redisCacheService.Del,
    redis.DEL, redis.GET.
  destruct (redis.up (r (store q))) eqn:Hup; simpl; rewrite ?Hup; [|done].
  rewrite lookup_delete_ne; [done|].
  intros Heq. by apply (queryKey_is_no_pattern (keyspace (store q)) c rq c').
Qed.

Lemma runObserver_keeps call (q : refreshableQueryCache) (c rq : string) :
  refreshableQueryCache.Get c rq (state_of (runObserver call q))
  = refreshableQueryCache.Get c rq q.
Proof.
  unfold runObserver. destruct call.1 as [c'|n]; [|done].
  rewrite <- (pruneCollection_keeps c' q c rq).
  by destruct (refreshableQueryCache.pruneCollection c' q).
Qed.

Lemma runObservers_keeps calls (q : refreshableQueryCache) (c rq : string) :
  refreshableQueryCache.Get c rq (state_of (runObservers calls q))
  = refreshableQueryCache.Get c rq q.
Proof.
  revert q. induction calls as [|call calls IH]; intros q; simpl; [done|].
  pose proof (runObserver_keeps call q c rq) as Hstep.
  destruct (runObserver call q) as [[] q'|q']; simpl in *; [|done].
  by rewrite IH.
Qed.

Lemma Get_with_wes_mu (q : refreshableQueryCache) (m : sync.RWMutex) (c rq : string) :
  refreshableQueryCache.Get c rq (with_wes_mu q m) = refreshableQueryCache.Get c rq q.
Proof. reflexivity. Qed.

Lemma dispatch_keeps ex (q : refreshableQueryCache) (c rq : string) :
  refreshableQueryCache.Get c rq (state_of (dispatch ex q))
  = refreshableQueryCache.Get c rq q.
Proof.
  unfold dispatch. destruct (sync.RLock (wes_mu (wes q))) as [held|]; [|done].
  pose proof (runObservers_keeps
                (dispatchCalls (observes (wes (with_wes_mu q held))) ex)
                (with_wes_mu q held) c rq) as Hrun.
  destruct (runObservers _ _) as [[] q'|q']; simpl state_of in *.
  - rewrite Get_with_wes_mu, Hrun. apply Get_with_wes_mu.
  - rewrite Hrun. apply Get_with_wes_mu.
Qed.

(** C1, where the code departs from it: an entry that [Get] finds is still
    found after the eviction callback of any collection, its own included,
    and after the dispatch of any batch of change events.  The callback asks
    Redis to delete the one key [<collection>:*], which no entry has. *)
Theorem eviction_removes_no_entry
    (q : refreshableQueryCache) (c rq : string) (data : io.Reader)
    (Hhit : refreshableQueryCache.Get c rq q = Ok data) :
  (forall c',
     refreshableQueryCache.Get c rq
       (state_of (refreshableQueryCache.pruneCollection c' q)) = Ok data)
  /\ (forall ex,
        refreshableQueryCache.Get c rq (state_of (dispatch ex q)) = Ok data).
Proof.
  split.
  - intros c'. by rewrite pruneCollection_keeps.
  - intros ex. by rewrite dispatch_keeps.
Qed.

(** One entry under "users", a change event for "users": the callback runs to
    its end, and the entry is still served. *)
Lemma users_entry_survives_its_eviction :
  refreshableQueryCache.Get "users" "a"
    (state_of (dispatch [eventOf "update" "7" "users" "null"]
                 (stored "users" "a" "one" (cacheOver true))))
  = Ok (io.NewReader (list_byte_of_string "one")).
Proof.
  apply (eviction_removes_no_entry
           (stored "users" "a" "one" (cacheOver true)) "users" "a"
           (io.NewReader (list_byte_of_string "one"))).
  vm_compute. reflexivity.
Defined.

(** The scenario of the eviction property: two entries under "users", then a
    change event for "users".  The second [Set] has kept the mutex, so the
    callback parks; both entries are still served. *)
Example eviction_scenario :
  let q2 := stored "users" "b" "two" (stored "users" "a" "one" (cacheOver true)) in
  let ev := eventOf "update" "7" "users" "null" in
  dispatchCalls (observes (wes q2)) [ev] = [(pruneObserver "users", ev)]
  /\ (exists q3, dispatch [ev] q2 = Blocked q3
        /\ refreshableQueryCache.Get "users" "a" q3
           = Ok (io.NewReader (list_byte_of_string "one"))
        /\ refreshableQueryCache.Get "users" "b" q3
           = Ok (io.NewReader (list_byte_of_string "two"))).
Proof.
  split; [by vm_compute|].
  eexists. split; [by vm_compute|]. split; by vm_compute.
Qed.

(** The same with one entry, where the callback is not held up: it returns,
    Redis has deleted nothing, and the collection is no longer observed. *)
Example eviction_single_entry :
  let q1 := stored "users" "a" "one" (cacheOver true) in
  let ev := eventOf "update" "7" "users" "null" in
  exists q2, dispatch [ev] q1 = Returned tt q2
    /\ redis.kv (r (store q2)) = redis.kv (r (store q1))
    /\ observedCollections q2 = ∅
    /\ refreshableQueryCache.Get "users" "a" q2
       = Ok (io.NewReader (list_byte_of_string "one")).
Proof.
  eexists. split; [by vm_compute|]. repeat split; by vm_compute.
Qed.

(* ===================================================================== *)
(** ** The flush: deduplication and dispatch                              *)
(* ===================================================================== *)

Lemma uniqueEvents_snoc (ex : list WebhookEvent) (e : WebhookEvent) :
  uniqueEvents (ex ++ [e]) = <[compositeKey e := e]> (uniqueEvents ex).
Proof. unfold uniqueEvents. by rewrite foldl_app. Qed.

(** Under each composite key the map holds the last event of the batch that
    has this key. *)
Lemma uniqueEvents_last_seen (ex : list WebhookEvent) (k : string) :
  uniqueEvents ex !! k = last (filter (fun e => compositeKey e = k) ex).
Proof.
  induction ex as [|e ex IH] using rev_ind; [done|].
  rewrite uniqueEvents_snoc, filter_app, lookup_insert.
  case_decide as Hk.
  - rewrite filter_cons_True by done. by rewrite filter_nil, last_snoc.
  - rewrite filter_cons_False by done. by rewrite filter_nil, app_nil_r.
Qed.

Lemma uniqueEvents_key (ex : list WebhookEvent) (k : string) (e : WebhookEvent) :
  uniqueEvents ex !! k = Some e -> compositeKey e = k.
Proof.
  rewrite uniqueEvents_last_seen. intros Hl.
  apply last_Some_elem_of in Hl. by apply list_elem_of_filter in Hl as [? _].
Qed.

Lemma elem_of_flushEvents (ex : list WebhookEvent) (e : WebhookEvent) :
  e ∈ flushEvents ex
  <-> last (filter (fun e' => compositeKey e' = compositeKey e) ex) = Some e.
Proof.
  unfold flushEvents. rewrite list_elem_of_fmap. split.
  - intros ([k e'] & -> & Hin). apply elem_of_map_to_list in Hin. simpl.
    pose proof (uniqueEvents_key _ _ _ Hin) as <-.
    by rewrite <- uniqueEvents_last_seen.
  - intros Hl. exists (compositeKey e, e). split; [done|].
    apply elem_of_map_to_list. by rewrite uniqueEvents_last_seen.
Qed.

Lemma ContainsByte_app (s t : string) (a : ascii) :
  strings.ContainsByte (s ++ t) a = strings.ContainsByte s a || strings.ContainsByte t a.
Proof.
  induction s as [|b s IH]; [done|].
  change (String b s ++ t)%string with (String b (s ++ t)).
  simpl. rewrite IH. by rewrite orb_assoc.
Qed.

Lemma colon_suffix_inj (a b h1 h2 : string) :
  strings.ContainsByte h1 ":" = false ->
  strings.ContainsByte h2 ":" = false ->
  (a ++ ":" ++ h1)%string = (b ++ ":" ++ h2)%string -> a = b /\ h1 = h2.
Proof.
  intros H1 H2. revert b. induction a as [|x a IH]; intros [|y b] Heq.
  - injection Heq as Heq. done.
  - injection Heq as Hy Heq. change (h1 = (b ++ String ":" h2)%string) in Heq. subst.
    rewrite ContainsByte_app in H1. simpl in H1. by rewrite orb_true_r in H1.
  - injection Heq as Hx Heq. change ((a ++ String ":" h1)%string = h2) in Heq. subst.
    rewrite ContainsByte_app in H2. simpl in H2. by rewrite orb_true_r in H2.
  - injection Heq as Hx Heq. destruct (IH _ Heq) as [-> ->]. by subst.
Qed.

Lemma append_assoc' (a b c : string) : ((a ++ b) ++ c)%string = (a ++ (b ++ c))%string.
Proof.
  induction a as [|x a IH]; [done|].
  change ((String x a ++ b) ++ c)%string with (String x ((a ++ b) ++ c)).
  by rewrite IH.
Qed.

Lemma flushEvents_same_key (e1 e2 e3 : WebhookEvent) :
  compositeKey e1 = compositeKey e3 ->
  compositeKey e2 = compositeKey e3 ->
  flushEvents [e1; e2; e3] = [e3].
Proof.
  intros H1 H2. unfold flushEvents, uniqueEvents. simpl.
  rewrite H1, H2, !insert_insert_eq, insert_empty, map_to_list_singleton. done.
Qed.

(** Events with the same three fields have the same composite key; for
    events whose event and key fields hold no colon the converse holds as
    well. *)
Lemma compositeKey_triple (e1 e2 : WebhookEvent) :
  triple e1 = triple e2 -> compositeKey e1 = compositeKey e2.
Proof. unfold triple, compositeKey. by intros [= -> -> ->]. Qed.

Lemma compositeKey_plain_inj (e1 e2 : WebhookEvent) :
  plain e1 -> plain e2 -> compositeKey e1 = compositeKey e2 -> triple e1 = triple e2.
Proof.
  intros [HE1 HK1] [HE2 HK2]. unfold compositeKey, triple. intros Heq.
  assert (((Collection e1 ++ ":" ++ Event e1) ++ ":" ++ Key e1)%string
          = ((Collection e2 ++ ":" ++ Event e2) ++ ":" ++ Key e2)%string) as Heq'.
  { by rewrite !append_assoc'. }
  apply colon_suffix_inj in Heq' as [Hce ->]; [|done..].
  apply colon_suffix_inj in Hce as [-> ->]; done.
Qed.

Lemma last_filter_agree {A : Type} (P1 P2 : A -> Prop)
    `{!forall x, Decision (P1 x)} `{!forall x, Decision (P2 x)} (l : list A) :
  Forall (fun x => P1 x <-> P2 x) l -> filter P1 l = filter P2 l.
Proof.
  induction 1 as [|x l Hx _ IH]; [done|].
  rewrite !filter_cons, IH.
  destruct (decide (P1 x)), (decide (P2 x)); tauto.
Qed.

Lemma flushEvents_NoDup (ex : list WebhookEvent) :
  NoDup (compositeKey <$> flushEvents ex).
Proof.
  unfold flushEvents.
  assert ((compositeKey <$> (map_to_list (uniqueEvents ex)).*2)
          = (map_to_list (uniqueEvents ex)).*1) as ->.
  { rewrite <- list_fmap_compose. apply Forall_fmap_ext_1, Forall_forall.
    intros [k e] Hin. apply elem_of_map_to_list in Hin. simpl.
    by apply uniqueEvents_key in Hin. }
  apply NoDup_fst_map_to_list.
Qed.

Lemma last_filter_elem_of {A : Type} (P : A -> Prop) `{!forall x, Decision (P x)}
    (l : list A) (x : A) :
  last (filter P l) = Some x -> x ∈ l.
Proof.
  intros Hl. apply last_Some_elem_of in Hl. by apply list_elem_of_filter in Hl as [_ ?].
Qed.

(** C6, as the code has it.  The flush deduplicates by the composite key of
    the code, the text collection:event:key: an event is dispatched exactly
    when it is the last of the batch with its text, and no text is dispatched
    twice.  Events with the same collection, event and key have the same
    text; events whose event and key fields hold no colon have the same text
    only then, so that a batch of such events is deduplicated by the three
    fields, the last-seen event of each triple being the one dispatched.
    And three events with the same collection, event and key that are
    submitted in one window reach the dispatch goroutine as one batch, of
    which the loop dispatches exactly one event, the third, to whatever
    observers are registered. *)
Theorem flush_keeps_last_per_key (ex : list WebhookEvent) :
  (forall e, e ∈ flushEvents ex
             <-> last (filter (fun e' => compositeKey e' = compositeKey e) ex) = Some e)
  /\ NoDup (compositeKey <$> flushEvents ex)
  /\ (forall e1 e2, triple e1 = triple e2 -> compositeKey e1 = compositeKey e2)
  /\ (forall e1 e2, plain e1 -> plain e2 ->
        compositeKey e1 = compositeKey e2 -> triple e1 = triple e2)
  /\ (Forall plain ex ->
        (forall e, e ∈ flushEvents ex
                   <-> last (filter (fun e' => triple e' = triple e) ex) = Some e)
        /\ NoDup (triple <$> flushEvents ex))
  /\ (forall e1 e2 e3, triple e1 = triple e3 -> triple e2 = triple e3 ->
        flux.window3 e1 e2 e3 = Some ([e1; e2; e3], flux.empty)
        /\ flushEvents [e1; e2; e3] = [e3]
        /\ forall (F : Type) (obs : gmap string F),
             dispatchCalls obs [e1; e2; e3] = invocations obs e3).
Proof.
  split; [apply elem_of_flushEvents|].
  split; [apply flushEvents_NoDup|].
  split; [apply compositeKey_triple|].
  split; [apply compositeKey_plain_inj|].
  split.
  - intros Hplain.
    assert (forall e, e ∈ ex ->
              filter (fun e' => compositeKey e' = compositeKey e) ex
              = filter (fun e' => triple e' = triple e) ex) as Hfilter.
    { intros e He. apply last_filter_agree.
      rewrite Forall_forall in Hplain |- *. intros e' He'. split.
      - apply compositeKey_plain_inj; auto.
      - apply compositeKey_triple. }
    split.
    + intros e. rewrite elem_of_flushEvents. split; intros Hl.
      * rewrite <- Hfilter; [done|]. by eapply last_filter_elem_of.
      * rewrite Hfilter; [done|]. by eapply last_filter_elem_of.
    + assert (Forall plain (flushEvents ex)) as Hflushed.
      { rewrite Forall_forall in Hplain |- *. intros e He. apply Hplain.
        apply elem_of_flushEvents in He. by eapply last_filter_elem_of. }
      pose proof (flushEvents_NoDup ex) as Hnd. revert Hnd Hflushed.
      generalize (flushEvents ex) as l.
      induction l as [|e l IH]; intros Hnd Hflushed; [constructor|].
      csimpl in Hnd. csimpl.
      apply NoDup_cons in Hnd as [Hnotin Hnd].
      apply Forall_cons in Hflushed as [He Hl].
      apply NoDup_cons. split; [|by apply IH].
      intros Hin. apply Hnotin.
      apply list_elem_of_fmap in Hin as (e' & Heq & He').
      apply list_elem_of_fmap. exists e'. split; [|done].
      by apply compositeKey_triple.
  - intros e1 e2 e3 H1 H2.
    apply compositeKey_triple in H1, H2.
    split; [reflexivity|].
    split; [by apply flushEvents_same_key|].
    intros F obs. unfold dispatchCalls.
    rewrite (flushEvents_same_key _ _ _ H1 H2). simpl. by rewrite app_nil_r.
Qed.

Lemma flush_keeps_last_of_three_orders :
  flux.window3 (eventOf "update" "7" "orders" "1") (eventOf "update" "7" "orders" "2")
    (eventOf "update" "7" "orders" "3")
  = Some ([eventOf "update" "7" "orders" "1"; eventOf "update" "7" "orders" "2";
           eventOf "update" "7" "orders" "3"], flux.empty)
  /\ flushEvents [eventOf "update" "7" "orders" "1"; eventOf "update" "7" "orders" "2";
                  eventOf "update" "7" "orders" "3"]
     = [eventOf "update" "7" "orders" "3"]
  /\ forall (F : Type) (obs : gmap string F),
       dispatchCalls obs [eventOf "update" "7" "orders" "1";
                          eventOf "update" "7" "orders" "2";
                          eventOf "update" "7" "orders" "3"]
       = invocations obs (eventOf "update" "7" "orders" "3").
Proof.
  apply (proj2 (proj2 (proj2 (proj2 (proj2 (flush_keeps_last_per_key [])))))
           (eventOf "update" "7" "orders" "1") (eventOf "update" "7" "orders" "2")
           (eventOf "update" "7" "orders" "3")); reflexivity.
Defined.

(** C6, as the specification has it, fails: the two events below differ in
    collection and event, each is the last event of the batch with its
    collection, event and key, and the flush dispatches the second only. *)
Lemma flush_drops_the_last_event_of_a_triple :
  triple (eventOf "items:update" "7" "orders" "1")
  <> triple (eventOf "update" "7" "orders:items" "2")
  /\ last (filter (fun e => triple e = triple (eventOf "items:update" "7" "orders" "1"))
             [eventOf "items:update" "7" "orders" "1";
              eventOf "update" "7" "orders:items" "2"])
     = Some (eventOf "items:update" "7" "orders" "1")
  /\ flushEvents [eventOf "items:update" "7" "orders" "1";
                  eventOf "update" "7" "orders:items" "2"]
     = [eventOf "update" "7" "orders:items" "2"]
  /\ eventOf "items:update" "7" "orders" "1"
     ∉ flushEvents [eventOf "items:update" "7" "orders" "1";
                    eventOf "update" "7" "orders:items" "2"].
Proof.
  assert (flushEvents [eventOf "items:update" "7" "orders" "1";
                       eventOf "update" "7" "orders:items" "2"]
          = [eventOf "update" "7" "orders:items" "2"]) as Hflush.
  { unfold flushEvents, uniqueEvents. simpl.
    change (compositeKey (eventOf "items:update" "7" "orders" "1"))
      with (compositeKey (eventOf "update" "7" "orders:items" "2")).
    by rewrite insert_insert_eq, insert_empty, map_to_list_singleton. }
  split; [discriminate|].
  split; [by vm_compute|].
  split; [done|].
  rewrite Hflush. intros Hin. apply list_elem_of_singleton in Hin. discriminate Hin.
Qed.

(** C10: the composite key is the joined text, not the triple: the events
    (collection "a", event "b:c", key "d") and (collection "a:b", event "c",
    key "d") differ as triples, have the same composite key, and a flush of
    the two dispatches the second one only. *)
Theorem flush_coalesces_distinct_triples :
  exists e1 e2 : WebhookEvent,
    (Collection e1, Event e1, Key e1) = ("a", "b:c", "d")
    /\ (Collection e2, Event e2, Key e2) = ("a:b", "c", "d")
    /\ (Collection e1, Event e1, Key e1) <> (Collection e2, Event e2, Key e2)
    /\ compositeKey e1 = compositeKey e2
    /\ flushEvents [e1; e2] = [e2]
    /\ (forall (F : Type) (obs : gmap string F),
          dispatchCalls obs [e1; e2] = invocations obs e2).
Proof.
  exists (eventOf "b:c" "d" "a" "1"), (eventOf "c" "d" "a:b" "2").
  split; [reflexivity|]. split; [reflexivity|].
  split; [discriminate|]. split; [reflexivity|].
  assert (flushEvents [eventOf "b:c" "d" "a" "1"; eventOf "c" "d" "a:b" "2"]
          = [eventOf "c" "d" "a:b" "2"]) as Hflush.
  { unfold flushEvents, uniqueEvents. simpl.
    change (compositeKey (eventOf "b:c" "d" "a" "1"))
      with (compositeKey (eventOf "c" "d" "a:b" "2")).
    by rewrite insert_insert_eq, insert_empty, map_to_list_singleton. }
  split; [done|].
  intros F obs. unfold dispatchCalls. rewrite Hflush. simpl. by rewrite app_nil_r.
Qed.

(* ===================================================================== *)
(** ** The ingestion endpoint                                             *)
(* ===================================================================== *)



(* ===================================================================== *)
(** ** The request path                                                   *)
(* ===================================================================== *)

Section Call_facts.

Variable Do : Request -> result Response.
Variable d : DirectusClient.

Implicit Types (req : Request) (u : URL) (q : refreshableQueryCache).

Lemma Call_invalid_method req q :
  allowedMethod (Method req) = false ->
  Call Do d req q = Returned (Err "invalid method") q.
Proof. intros Hm. unfold Call. by rewrite Hm. Qed.

(** A hit is answered from the cache; [Do] is not consulted. *)
Lemma Call_hit req u pre c q data :
  allowedMethod (Method req) = true ->
  ReqURL req = Some u ->
  strings.SplitN2 (Path u) "items/" = [pre; c] ->
  refreshableQueryCache.Get c (RawQuery (prepareURL d u)) q = Ok data ->
  Call Do d req q = Returned (Ok {| StatusCode := 200; Body := data |}) q.
Proof.
  intros Hm Hu Hp Hget. unfold Call. rewrite Hm, Hu, Hp.
  cbn [negb cacheGet refreshableQueryCache_QueryCache]. by rewrite Hget.
Qed.

(** A miss goes to the origin, and a 200 answer goes through [Set]. *)
Lemma Call_miss req u pre c q msg resp :
  allowedMethod (Method req) = true ->
  ReqURL req = Some u ->
  strings.SplitN2 (Path u) "items/" = [pre; c] ->
  refreshableQueryCache.Get c (RawQuery (prepareURL d u)) q = Err msg ->
  Do (prepare d req u) = Ok resp ->
  StatusCode resp = 200 ->
  Call Do d req q =
    match refreshableQueryCache.Set_ c (RawQuery (prepareURL d u)) (Body resp) q with
    | Blocked q' => Blocked q'
    | Returned (data, _) q' =>
        Returned (Ok {| StatusCode := 200; Body := io.NewReader data |}) q'
    end.
Proof.
  intros Hm Hu Hp Hget Hdo Hst. unfold Call. rewrite Hm, Hu, Hp.
  cbn [negb cacheGet cacheSet refreshableQueryCache_QueryCache].
  rewrite Hget, Hdo, Hst. change (200 =? http.StatusOK) with true. cbv iota.
  destruct (refreshableQueryCache.Set_ _ _ _ _) as [[data err] q'|q']; done.
Qed.

End Call_facts.

(** With the payload read and the store answering, the entry is in the
    store in the state that [Set] leaves, whether it returns or parks. *)
Lemma Get_after_Set_state (c rq : string) (data : io.Reader) (q : refreshableQueryCache) :
  io.failure data = None ->
  redis.up (r (store q)) = true ->
  refreshableQueryCache.Get c rq (state_of (refreshableQueryCache.Set_ c rq data q))
  = Ok (io.NewReader (io.content data)).
Proof.
  intros Hread Hup.
  unfold refreshableQueryCache.Set_, redisCacheService.Set_, redis.SET, io.ReadAll,
    with_server.
  rewrite Hread, Hup. cbn [mu store observedCollections wes].
  assert (forall q' : refreshableQueryCache,
            store q' = {| r := {| redis.kv :=
                                    <[(keyspace (store q) ++ ":" ++ queryKey c rq)%string
                                      := io.content data]> (redis.kv (r (store q)));
                                  redis.up := true |};
                          keyspace := keyspace (store q) |} ->
            refreshableQueryCache.Get c rq q' = Ok (io.NewReader (io.content data)))
    as Hget.
  { intros q' Hst. unfold refreshableQueryCache.Get, redisCacheService.Get, redis.GET.
    rewrite Hst. simpl. by rewrite lookup_insert_eq. }
  destruct (sync.Lock (mu q)) as [held|]; [|by apply Hget].
  case_decide; [by apply Hget|].
  cbn [mu store observedCollections wes].
  destruct (AddObserver _ _ _); by apply Hget.
Qed.

(** C2, as the code has it: [Call] bypasses the cache for no method that it
    serves.  A request with a method other than GET, POST, PATCH and DELETE is
    refused with "invalid method" before the cache or the origin is reached.
    A request with one of the four is served exactly as the same request with
    method GET, the method reaching the origin only.  So, for each of them,
    on a URL whose path is [<pre>items/<c>]: a request that the cache can
    answer is answered from the cache with status 200, whatever the origin
    would have said; and when the cache misses and the origin answers 200,
    the body goes to the cache's [Set] under (c, query), and [Call] returns
    status 200 with the bytes that [Set] hands back, or does not return when
    [Set] parks.  With the refreshable cache, a body that is read without
    error and a store that answers, the body is in the store afterwards, and
    it is what [Call] returns when the two locks are free. *)
Theorem Call_uses_cache_for_every_allowed_method
    {Q : Type} `{!QueryCache Q} (Do : Request -> result Response)
    (d : DirectusClient) (req : Request) (q : Q) :
  (allowedMethod (Method req) = false ->
     Call Do d req q = Returned (Err "invalid method") q)
  /\ (allowedMethod (Method req) = true ->
      Call Do d req q
      = Call (fun r => Do (withMethod r (Method req))) d (withMethod req "GET") q
      /\ forall u pre c,
           ReqURL req = Some u ->
           strings.SplitN2 (Path u) "items/" = [pre; c] ->
           (forall data,
              cacheGet c (RawQuery (prepareURL d u)) q = Ok data ->
              Call Do d req q
              = Returned (Ok {| StatusCode := 200; Body := data |}) q)
           /\ (forall msg resp,
                 cacheGet c (RawQuery (prepareURL d u)) q = Err msg ->
                 Do (prepare d req u) = Ok resp ->
                 StatusCode resp = 200 ->
                 Call Do d req q =
                   match cacheSet c (RawQuery (prepareURL d u)) (Body resp) q with
                   | Blocked q' => Blocked q'
                   | Returned (data, _) q' =>
                       Returned (Ok {| StatusCode := 200;
                                       Body := io.NewReader data |}) q'
                   end))
  /\ (forall (qr : refreshableQueryCache) u pre c msg resp,
        allowedMethod (Method req) = true ->
        ReqURL req = Some u ->
        strings.SplitN2 (Path u) "items/" = [pre; c] ->
        refreshableQueryCache.Get c (RawQuery (prepareURL d u)) qr = Err msg ->
        Do (prepare d req u) = Ok resp ->
        StatusCode resp = 200 ->
        io.failure (Body resp) = None ->
        redis.up (r (store qr)) = true ->
        refreshableQueryCache.Get c (RawQuery (prepareURL d u))
          (state_of (Call Do d req qr))
        = Ok (io.NewReader (io.content (Body resp)))
        /\ (sync.free (mu qr) -> sync.free (wes_mu (wes qr)) ->
            exists q',
              Call Do d req qr =
                Returned (Ok {| StatusCode := 200;
                                Body := io.NewReader (io.content (Body resp)) |}) q')).
Proof.
  split; [|split].
  - intros Hm. unfold Call. by rewrite Hm.
  - intros Hm. split.
    + unfold Call. cbn [Method ReqURL withMethod]. rewrite Hm.
      change (allowedMethod "GET") with true. cbv iota. cbn [negb].
      destruct (ReqURL req) as [u|]; [|done].
      destruct (strings.SplitN2 (Path u) "items/") as [|pre [|c [|? ?]]]; try done.
    + intros u pre c Hu Hp. split.
      * intros data Hget. unfold Call. rewrite Hm, Hu, Hp. cbn [negb]. by rewrite Hget.
      * intros msg resp Hget Hdo Hst. unfold Call. rewrite Hm, Hu, Hp. cbn [negb].
        rewrite Hget, Hdo, Hst. change (200 =? http.StatusOK) with true. cbv iota.
        destruct (cacheSet _ _ _ _) as [[data err] q'|q']; done.
  - intros qr u pre c msg resp Hm Hu Hp Hget Hdo Hst Hread Hup.
    rewrite (Call_miss Do d req u pre c qr msg resp Hm Hu Hp Hget Hdo Hst).
    split.
    + pose proof (Get_after_Set_state c (RawQuery (prepareURL d u)) (Body resp) qr
                    Hread Hup) as Hstate.
      destruct (refreshableQueryCache.Set_ _ _ _ _) as [[data err] q'|q']; exact Hstate.
    + intros Hmu Hwes.
      destruct (Set_returns c (RawQuery (prepareURL d u)) (io.content (Body resp)) qr
                  Hup Hmu Hwes) as (q' & HSet & _).
      assert (Body resp = io.NewReader (io.content (Body resp))) as Hbody
        by (destruct (Body resp) as [b f]; simpl in *; by subst).
      rewrite Hbody, HSet. eauto.
Qed.

Lemma Call_POST_hit :
  Call (originOK "fresh") localClient (usersRequest "POST")
    (stored "users" "limit=100" "stale" (cacheOver true))
  = Returned
      (Ok {| StatusCode := 200;
             Body := io.NewReader (list_byte_of_string "stale") |})
      (stored "users" "limit=100" "stale" (cacheOver true)).
Proof.
  apply (proj1 (proj2 (proj1 (proj2 (Call_uses_cache_for_every_allowed_method
                                       (originOK "fresh") localClient
                                       (usersRequest "POST")
                                       (stored "users" "limit=100" "stale"
                                          (cacheOver true))))
                         eq_refl)
                  {| Scheme := ""; Host := ""; Path := "/items/users";
                     RawQuery := "limit=100" |}
                  "/" "users" eq_refl eq_refl)).
  vm_compute. reflexivity.
Defined.

(** C2, as the specification has it, fails: a POST is answered from the cache
    although the origin would answer otherwise, and a POST that misses leaves
    the origin's answer in the cache, where the next request finds it. *)
Lemma Call_POST_does_not_bypass_the_cache :
  Method (usersRequest "POST") <> "GET"
  /\ originOK "fresh" (prepare localClient (usersRequest "POST")
                         {| Scheme := ""; Host := ""; Path := "/items/users";
                            RawQuery := "limit=100" |})
     = Ok {| StatusCode := 200; Body := io.NewReader (list_byte_of_string "fresh") |}
  /\ Call (originOK "fresh") localClient (usersRequest "POST")
       (stored "users" "limit=100" "stale" (cacheOver true))
     = Returned
         (Ok {| StatusCode := 200;
                Body := io.NewReader (list_byte_of_string "stale") |})
         (stored "users" "limit=100" "stale" (cacheOver true))
  /\ refreshableQueryCache.Get "users" "limit=100" (cacheOver true) = Err redis.Nil
  /\ refreshableQueryCache.Get "users" "limit=100"
       (state_of (Call (originOK "fresh") localClient (usersRequest "POST")
                    (cacheOver true)))
     = Ok (io.NewReader (list_byte_of_string "fresh")).
Proof.
  split; [simpl; discriminate|]. split; [reflexivity|].
  split; [by vm_compute|]. split; by vm_compute.
Qed.

(** C4, where the code departs from it: when the store does not answer, a
    request that the origin answers with 200 and a body read without error
    comes back from [Call] with status 200 and an empty body, whatever the
    origin's body was: [Set] returns no bytes together with its error, and
    [Call] builds the body from what [Set] returned. *)
Theorem Call_returns_empty_body_when_store_fails
    (Do : Request -> result Response) (d : DirectusClient)
    (req : Request) (u : URL) (pre c : string) (q : refreshableQueryCache)
    (resp : Response)
    (Hm : allowedMethod (Method req) = true)
    (Hu : ReqURL req = Some u)
    (Hp : strings.SplitN2 (Path u) "items/" = [pre; c])
    (Hdown : redis.up (r (store q)) = false)
    (Hdo : Do (prepare d req u) = Ok resp)
    (Hst : StatusCode resp = 200)
    (Hread : io.failure (Body resp) = None) :
  Call Do d req q =
    Returned (Ok {| StatusCode := 200; Body := io.NewReader [] |}) q.
Proof.
  assert (refreshableQueryCache.Get c (RawQuery (prepareURL d u)) q
          = Err redis.unreachable) as Hget.
  { unfold refreshableQueryCache.Get, redisCacheService.Get, redis.GET.
    by rewrite Hdown. }
  rewrite (Call_miss Do d req u pre c q _ resp Hm Hu Hp Hget Hdo Hst).
  unfold refreshableQueryCache.Set_, redisCacheService.Set_, redis.SET. simpl.
  rewrite Hread, Hdown. done.
Qed.

Lemma Call_GET_with_store_down :
  Call (originOK "hello") localClient (usersRequest "GET") (cacheOver false)
  = Returned (Ok {| StatusCode := 200; Body := io.NewReader [] |}) (cacheOver false).
Proof.
  apply (Call_returns_empty_body_when_store_fails
           (originOK "hello") localClient (usersRequest "GET")
           {| Scheme := ""; Host := ""; Path := "/items/users";
              RawQuery := "limit=100" |}
           "/" "users" (cacheOver false)
           {| StatusCode := 200;
              Body := io.NewReader (list_byte_of_string "hello") |});
    reflexivity.
Defined.

(** With the store answering, or with the no-op cache, the same request
    comes back with the origin's body. *)
Example Call_GET_with_store_up :
  exists q',
    Call (originOK "hello") localClient (usersRequest "GET") (cacheOver true)
    = Returned (Ok {| StatusCode := 200;
                      Body := io.NewReader (list_byte_of_string "hello") |}) q'
  /\ Call (originOK "hello") localClient (usersRequest "GET") tt
     = Returned (Ok {| StatusCode := 200;
                       Body := io.NewReader (list_byte_of_string "hello") |}) tt.
Proof. eexists. split; by vm_compute. Qed.

(* ===================================================================== *)
(** ** The store options, the store, and the keys                        *)
(* ===================================================================== *)

(** X1: after [applyDefault] no field is the zero value (the keyspace is not
    empty, the timeout and the time to live are not 0), a field that was given
    is kept, applying the defaults twice is applying them once, and so the
    service that [NewRedisCacheService] builds has a keyspace and durations
    that are not zero. *)
Theorem applyDefault_fills_zero_fields (o : RedisCacheServiceOption) :
  Keyspace (applyDefault o) <> ""
  /\ ExecTimeout (applyDefault o) <> 0
  /\ CacheTTL (applyDefault o) <> 0
  /\ (Keyspace o <> "" -> Keyspace (applyDefault o) = Keyspace o)
  /\ (ExecTimeout o <> 0 -> ExecTimeout (applyDefault o) = ExecTimeout o)
  /\ (CacheTTL o <> 0 -> CacheTTL (applyDefault o) = CacheTTL o)
  /\ applyDefault (applyDefault o) = applyDefault o
  /\ forall rdb, keyspace (service (NewRedisCacheService rdb o)) <> ""
                 /\ timeout (NewRedisCacheService rdb o) <> 0
                 /\ ttl (NewRedisCacheService rdb o) <> 0.
Proof.
  destruct o as [ks t l]. unfold NewRedisCacheService, applyDefault. simpl.
  destruct (String.eqb_spec ks ""), (Z.eqb_spec t 0), (Z.eqb_spec l 0); simpl;
    subst; repeat split; try done;
    repeat match goal with
      | |- context [String.eqb ?a ?b] => destruct (String.eqb_spec a b); try done
      | |- context [?a =? ?b] => destruct (Z.eqb_spec a b); try done
      end.
Qed.

Lemma applyDefault_keeps_given_keyspace :
  Keyspace (applyDefault {| Keyspace := "cache"; ExecTimeout := 0; CacheTTL := 0 |})
  = "cache".
Proof.
  apply (proj1 (proj2 (proj2 (proj2
           (applyDefault_fills_zero_fields
              {| Keyspace := "cache"; ExecTimeout := 0; CacheTTL := 0 |}))))).
  simpl. discriminate.
Defined.

Lemma prefixed_inj (ks k1 k2 : string) :
  (ks ++ ":" ++ k1)%string = (ks ++ ":" ++ k2)%string -> k1 = k2.
Proof.
  induction ks as [|a ks IH]; intros H.
  - by injection H.
  - injection H as H. by apply IH.
Qed.

(** X2: on a server that answers, [Get] after [Set] of a key returns the
    value, [Get] after [Del] of a key misses with redis.Nil, and neither changes
    what [Get] returns for another key; on a server that does not answer,
    [Set], [Del] and [Get] return the error and [Set] and [Del] change
    nothing. *)
Theorem store_is_a_map_under_its_keyspace
    (cs : redisCacheService) (k k' : string) (v : bytes) :
  (redis.up (r cs) = true ->
     (exists cs', redisCacheService.Set_ k v cs = (None, cs')
        /\ redisCacheService.Get k cs' = Ok v
        /\ (k' <> k -> redisCacheService.Get k' cs' = redisCacheService.Get k' cs))
     /\ (exists cs', redisCacheService.Del k cs = (None, cs')
           /\ redisCacheService.Get k cs' = Err redis.Nil
           /\ (k' <> k -> redisCacheService.Get k' cs' = redisCacheService.Get k' cs)))
  /\ (redis.up (r cs) = false ->
        redisCacheService.Set_ k v cs = (Some redis.unreachable, cs)
        /\ redisCacheService.Del k cs = (Some redis.unreachable, cs)
        /\ redisCacheService.Get k cs = Err redis.unreachable).
Proof.
  destruct cs as [[kv up] ks].
  unfold redisCacheService.Set_, redisCacheService.Del, redisCacheService.Get,
    redis.SET, redis.DEL, redis.GET, with_server. simpl.
  split; intros ->.
  - split; eexists; (split; [reflexivity|]); simpl.
    + rewrite lookup_insert_eq. split; [done|].
      intros Hk. rewrite lookup_insert_ne; [done|].
      intros Heq. apply prefixed_inj in Heq. congruence.
    + rewrite lookup_delete_eq. split; [done|].
      intros Hk. rewrite lookup_delete_ne; [done|].
      intros Heq. apply prefixed_inj in Heq. congruence.
  - done.
Qed.

Lemma store_keeps_what_was_set :
  exists cs',
    redisCacheService.Set_ "users:1" (list_byte_of_string "one")
      {| r := {| redis.kv := ∅; redis.up := true |}; keyspace := "directus" |}
    = (None, cs')
    /\ redisCacheService.Get "users:1" cs' = Ok (list_byte_of_string "one")
    /\ ("posts:1" <> "users:1" ->
        redisCacheService.Get "posts:1" cs'
        = redisCacheService.Get "posts:1"
            {| r := {| redis.kv := ∅; redis.up := true |}; keyspace := "directus" |}).
Proof.
  apply (proj1 (store_is_a_map_under_its_keyspace
                  {| r := {| redis.kv := ∅; redis.up := true |}; keyspace := "directus" |}
                  "users:1" "posts:1" (list_byte_of_string "one"))).
  reflexivity.
Defined.

Lemma digit_mod16_hex (x : Z) :
  strconv.digit (x mod 16) ∈ list_ascii_of_string "0123456789abcdef".
Proof.
  pose proof (Z.mod_pos_bound x 16 eq_refl) as Hd.
  assert (Hcases : Forall (fun d => strconv.digit d ∈ list_ascii_of_string "0123456789abcdef")
                     (Z.of_nat <$> seq 0 16)).
  { repeat constructor; vm_compute; set_solver. }
  eapply Forall_forall in Hcases; [exact Hcases|].
  apply list_elem_of_fmap. exists (Z.to_nat (x mod 16)). split; [lia|].
  apply elem_of_seq. lia.
Qed.

Lemma digit_not_colon (x : Z) : strconv.digit (x mod 16) <> ":"%char.
Proof.
  intros Heq.
  assert (":"%char ∉ list_ascii_of_string "0123456789abcdef") as Hnot
    by (apply (bool_decide_unpack _); vm_compute; exact I).
  apply Hnot. rewrite <- Heq. apply digit_mod16_hex.
Qed.

Lemma formatBits_hex_no_colon (fuel : nat) (x : Z) (acc : string) :
  strings.ContainsByte acc ":" = false ->
  strings.ContainsByte (strconv.formatBits fuel x 16 acc) ":" = false.
Proof.
  revert x acc. induction fuel as [|fuel IH]; intros x acc Hacc; [done|].
  rewrite formatBits_S.
  assert (strings.ContainsByte (String (strconv.digit (x mod 16)) acc) ":" = false) as Hd.
  { simpl. rewrite Hacc, orb_false_r. apply Ascii.eqb_neq, digit_not_colon. }
  destruct (x / 16 =? 0); [done|]. by apply IH.
Qed.

(** Where a key ends in [":" ++ h] with no colon in [h], the part before is
    determined. *)
Lemma queryKey_effective (c q : string) :
  exists h, queryKey c q
            = (effectiveCollection c ++ ":" ++ strconv.FormatUint h 16)%string.
Proof.
  unfold queryKey, effectiveCollection.
  destruct (strings.Split c "/") as [|a [|b [|? ?]]]; eauto.
Qed.

Lemma queryKey_collection_inj (c1 c2 q1 q2 : string) :
  queryKey c1 q1 = queryKey c2 q2 -> effectiveCollection c1 = effectiveCollection c2.
Proof.
  destruct (queryKey_effective c1 q1) as [h1 ->].
  destruct (queryKey_effective c2 q2) as [h2 ->].
  intros Heq. eapply colon_suffix_inj in Heq; [by destruct Heq| |];
    by apply formatBits_hex_no_colon.
Qed.

Lemma effectiveCollection_plain (c : string) :
  strings.ContainsByte c "/" = false -> effectiveCollection c = c.
Proof. intros Hc. unfold effectiveCollection. by rewrite Split_without_sep. Qed.

(** What [Set] can have done to the store, whatever its outcome. *)
Lemma Set_store (c rq : string) (data : io.Reader) (q : refreshableQueryCache) :
  let q' := state_of (refreshableQueryCache.Set_ c rq data q) in
  store q' = store q
  \/ (redis.up (r (store q)) = true /\ io.failure data = None
      /\ store q' =
           {| r := {| redis.kv :=
                        <[(keyspace (store q) ++ ":" ++ queryKey c rq)%string
                          := io.content data]> (redis.kv (r (store q)));
                      redis.up := true |};
              keyspace := keyspace (store q) |}).
Proof.
  unfold refreshableQueryCache.Set_, redisCacheService.Set_, redis.SET, io.ReadAll,
    with_server.
  destruct (io.failure data) as [e|]; [by left|].
  destruct (redis.up (r (store q))) eqn:Hup; [|by left].
  cbn [mu store observedCollections wes].
  destruct (sync.Lock (mu q)) as [held|]; [|by right].
  case_decide; [by right|].
  cbn [mu store observedCollections wes].
  destruct (AddObserver _ _ _); by right.
Qed.

(** X4: keys of different collections differ, so [Set] under one collection,
    whatever its outcome, leaves what [Get] returns under another collection
    as it was.  The collection of a key is what [queryKey] puts before the
    colon. *)
Theorem Set_leaves_other_collections (c1 c2 rq1 rq2 : string) (data : io.Reader)
    (q : refreshableQueryCache) :
  effectiveCollection c1 <> effectiveCollection c2 ->
  queryKey c1 rq1 <> queryKey c2 rq2
  /\ refreshableQueryCache.Get c2 rq2
       (state_of (refreshableQueryCache.Set_ c1 rq1 data q))
     = refreshableQueryCache.Get c2 rq2 q.
Proof.
  intros Hne.
  assert (queryKey c1 rq1 <> queryKey c2 rq2) as Hkey
    by (intros Heq; by apply queryKey_collection_inj in Heq).
  split; [done|].
  destruct (Set_store c1 rq1 data q) as [Hs|(Hup & _ & Hs)];
    unfold refreshableQueryCache.Get, redisCacheService.Get, redis.GET;
    rewrite Hs; [done|]. simpl. rewrite Hup.
  rewrite lookup_insert_ne; [done|].
  intros Heq. apply prefixed_inj in Heq. done.
Qed.

Lemma Set_users_leaves_posts :
  refreshableQueryCache.Get "posts" "limit=5"
    (state_of (refreshableQueryCache.Set_ "users" "limit=5"
                 (io.NewReader (list_byte_of_string "u"))
                 (stored "posts" "limit=5" "p" (cacheOver true))))
  = refreshableQueryCache.Get "posts" "limit=5" (stored "posts" "limit=5" "p" (cacheOver true)).
Proof.
  apply (Set_leaves_other_collections "users" "posts" "limit=5" "limit=5").
  vm_compute. discriminate.
Defined.



(* ===================================================================== *)
(** ** What Set does, outcome by outcome                                 *)
(* ===================================================================== *)

(** X5: [Set] returns an error when reading the payload fails or the store does
    not answer, and only then; with the error it returns no bytes, and the
    cache is as it was: nothing stored, nothing marked, nothing registered, no
    lock taken. *)
Theorem Set_error_changes_nothing
    (c rq : string) (data : io.Reader) (q : refreshableQueryCache) :
  (io.failure data <> None \/ redis.up (r (store q)) = false ->
     exists e, refreshableQueryCache.Set_ c rq data q = Returned ([], Some e) q)
  /\ (forall b e q',
        refreshableQueryCache.Set_ c rq data q = Returned (b, Some e) q' ->
        b = [] /\ q' = q
        /\ (io.failure data = Some e
            \/ (io.failure data = None /\ redis.up (r (store q)) = false))).
Proof.
  unfold refreshableQueryCache.Set_, redisCacheService.Set_, redis.SET, io.ReadAll,
    with_server.
  split.
  - intros [Hf|Hdown].
    + destruct (io.failure data) as [e|]; [eauto|done].
    + destruct (io.failure data) as [e|]; [eauto|]. rewrite Hdown. eauto.
  - intros b e q'. destruct (io.failure data) as [e0|].
    { intros [= <- <- <-]. eauto. }
    destruct (redis.up (r (store q))) eqn:Hup.
    2: { intros [= <- <- <-]. eauto. }
    cbn [mu store observedCollections wes].
    destruct (sync.Lock (mu q)) as [held|]; [|done].
    case_decide; [done|].
    cbn [mu store observedCollections wes].
    destruct (AddObserver _ _ _); done.
Qed.

Lemma Set_error_store_down :
  exists e,
    refreshableQueryCache.Set_ "users" "limit=5"
      (io.NewReader (list_byte_of_string "u")) (cacheOver false)
    = Returned ([], Some e) (cacheOver false).
Proof.
  apply (proj1 (Set_error_changes_nothing "users" "limit=5"
                  (io.NewReader (list_byte_of_string "u")) (cacheOver false))).
  right. reflexivity.
Defined.

(** X6: when the payload is read without error and the store answers, the
    entry is in the store whatever [Set] does next: [Get] returns it in the
    state [Set] leaves, also when [Set] parks on a lock.  If [Set] returns, it
    returns the bytes read and no error, and the collection is marked observed;
    it parks only on the cache's mutex, or on the registry's lock when the
    collection was not yet observed. *)
Theorem Set_stores_before_it_locks
    (c rq : string) (data : io.Reader) (q : refreshableQueryCache) :
  io.failure data = None ->
  redis.up (r (store q)) = true ->
  let o := refreshableQueryCache.Set_ c rq data q in
  refreshableQueryCache.Get c rq (state_of o) = Ok (io.NewReader (io.content data))
  /\ (forall b err q', o = Returned (b, err) q' ->
        b = io.content data /\ err = None /\ c ∈ observedCollections q')
  /\ (forall q', o = Blocked q' ->
        sync.Lock (mu q) = None
        \/ ((c ∉ observedCollections q) /\ sync.Lock (wes_mu (wes q)) = None)).
Proof.
  intros Hf Hup o. subst o.
  unfold refreshableQueryCache.Set_, redisCacheService.Set_, redis.SET, io.ReadAll,
    with_server, refreshableQueryCache.Get, redisCacheService.Get, redis.GET.
  rewrite Hf, Hup. cbn [mu store observedCollections wes].
  destruct (sync.Lock (mu q)) as [held|].
  2: { simpl. rewrite ?Hup, lookup_insert_eq. split; [done|]. split; [done|]. eauto. }
  case_decide as Hobs.
  { simpl. rewrite ?Hup, lookup_insert_eq. split; [done|]. split; [|done].
    by intros b err q' [= <- <- <-]. }
  cbn [mu store observedCollections wes].
  unfold AddObserver.
  destruct (sync.Lock (wes_mu (wes q))) as [wheld|].
  2: { simpl. rewrite ?Hup, lookup_insert_eq. split; [done|]. split; [done|]. eauto. }
  destruct (observes (wes q) !! c); simpl; rewrite ?Hup, lookup_insert_eq;
    (split; [done|]); (split; [|done]);
    intros b err q' [= <- <- <-]; simpl; (split; [done|]); (split; [done|]);
    set_solver.
Qed.

Lemma Set_parked_has_stored :
  let o := refreshableQueryCache.Set_ "users" "c"
             (io.NewReader (list_byte_of_string "three"))
             (stored "users" "b" "two" (stored "users" "a" "one" (cacheOver true))) in
  refreshableQueryCache.Get "users" "c" (state_of o)
  = Ok (io.NewReader (list_byte_of_string "three")).
Proof.
  apply (Set_stores_before_it_locks "users" "c"
           (io.NewReader (list_byte_of_string "three"))
           (stored "users" "b" "two" (stored "users" "a" "one" (cacheOver true))));
    reflexivity.
Defined.

(* ===================================================================== *)
(** ** Registration and dispatch                                         *)
(* ===================================================================== *)

Lemma RUnlock_after_RLock (m held : sync.RWMutex) :
  sync.RLock m = Some held -> sync.RUnlock held = m.
Proof.
  destruct m as [[] n]; simpl; [done|]. by intros [= <-].
Qed.

Lemma pruneCollection_returns (c : string) (q : refreshableQueryCache) :
  sync.free (mu q) ->
  exists err q',
    refreshableQueryCache.pruneCollection c q = Returned err q'
    /\ mu q' = mu q /\ wes q' = wes q
    /\ observedCollections q' = observedCollections q ∖ {[c]}
    /\ keyspace (store q') = keyspace (store q)
    /\ redis.up (r (store q')) = redis.up (r (store q)).
Proof.
  intros Hmu. unfold refreshableQueryCache.pruneCollection.
  rewrite (Lock_free _ Hmu).
  unfold redisCacheService.Del, redis.DEL, with_server.
  destruct (redis.up (r (store q))) eqn:Hup; do 2 eexists;
    (split; [reflexivity|]); simpl; rewrite ?Hup;
    repeat split; try done; by rewrite (Unlock_after_Lock _ Hmu).
Qed.

Lemma runObservers_returns (calls : list (Observer * WebhookEvent))
    (q : refreshableQueryCache) :
  sync.free (mu q) ->
  exists q',
    runObservers calls q = Returned tt q'
    /\ mu q' = mu q /\ wes q' = wes q
    /\ observedCollections q' = observedCollections q ∖ prunedCollections calls
    /\ keyspace (store q') = keyspace (store q)
    /\ redis.up (r (store q')) = redis.up (r (store q)).
Proof.
  revert q. induction calls as [|[f e] calls IH]; intros q Hmu.
  - exists q. repeat split; try done. unfold prunedCollections. simpl. set_solver.
  - simpl. unfold runObserver. simpl. destruct f as [c|n].
    + destruct (pruneCollection_returns c q Hmu)
        as (err & q1 & -> & Hmu1 & Hwes1 & Hobs1 & Hks1 & Hup1).
      destruct (IH q1) as (q2 & -> & Hmu2 & Hwes2 & Hobs2 & Hks2 & Hup2);
        [by rewrite Hmu1|].
      exists q2. split; [done|]. rewrite Hmu2, Hwes2, Hobs2, Hks2, Hup2.
      rewrite Hmu1, Hwes1, Hobs1, Hks1, Hup1. repeat split; try done.
      unfold prunedCollections. simpl. set_solver.
    + destruct (IH q Hmu) as (q2 & -> & Hmu2 & Hwes2 & Hobs2 & Hks2 & Hup2).
      exists q2. repeat split; try done.
Qed.

Lemma dispatch_balance (ex : list WebhookEvent)
    (q : refreshableQueryCache) :
  sync.writer (wes_mu (wes q)) = false ->
  sync.free (mu q) ->
  exists q',
    dispatch ex q = Returned tt q'
    /\ mu q' = mu q
    /\ wes q' = wes q
    /\ observedCollections q'
       = observedCollections q ∖ prunedCollections (dispatchCalls (observes (wes q)) ex).
Proof.
  intros Hw Hmu. unfold dispatch.
  destruct (sync.RLock (wes_mu (wes q))) as [held|] eqn:HR.
  2: { unfold sync.RLock in HR. by rewrite Hw in HR. }
  destruct (runObservers_returns
              (dispatchCalls (observes (wes (with_wes_mu q held))) ex)
              (with_wes_mu q held) Hmu)
    as (q' & -> & Hmu' & Hwes' & Hobs' & _).
  eexists. split; [reflexivity|]. unfold with_wes_mu at 1 2 3. simpl.
  rewrite Hmu', Hobs', Hwes'. simpl. repeat split; try done.
  rewrite (RUnlock_after_RLock _ _ HR). by destruct (wes q).
Qed.

(** X10: with the registry's lock and the cache's mutex both free, the
    dispatch of any batch returns with both locks and the registry as they
    were, and the observed collections are those of before without the ones
    whose eviction callback was called. *)
Theorem dispatch_returns_and_releases (ex : list WebhookEvent)
    (q : refreshableQueryCache) :
  sync.free (wes_mu (wes q)) ->
  sync.free (mu q) ->
  exists q',
    dispatch ex q = Returned tt q'
    /\ mu q' = mu q
    /\ wes q' = wes q
    /\ observedCollections q'
       = observedCollections q ∖ prunedCollections (dispatchCalls (observes (wes q)) ex).
Proof. intros [Hw _]. by apply dispatch_balance. Qed.

Lemma dispatch_after_first_Set :
  exists q',
    dispatch [eventOf "update" "7" "users" "null"] (stored "users" "a" "one" (cacheOver true))
    = Returned tt q'
    /\ mu q' = sync.unlocked
    /\ wes q' = wes (stored "users" "a" "one" (cacheOver true))
    /\ observedCollections q'
       = observedCollections (stored "users" "a" "one" (cacheOver true))
         ∖ prunedCollections
             (dispatchCalls (observes (wes (stored "users" "a" "one" (cacheOver true))))
                [eventOf "update" "7" "users" "null"]).
Proof.
  apply (dispatch_returns_and_releases [eventOf "update" "7" "users" "null"]
           (stored "users" "a" "one" (cacheOver true))).
  - split; reflexivity.
  - split; reflexivity.
Defined.









Lemma flushEvents_length (ex : list WebhookEvent) :
  (length (flushEvents ex) <= length ex)%nat.
Proof.
  unfold flushEvents. rewrite length_fmap, length_map_to_list.
  induction ex as [|e ex IH] using rev_ind; [done|].
  rewrite uniqueEvents_snoc, length_app. simpl.
  destruct (uniqueEvents ex !! compositeKey e) eqn:Hk.
  - rewrite map_size_insert_Some by eauto. lia.
  - rewrite map_size_insert_None by done. lia.
Qed.

Section Dispatch_facts.

Context {F : Type}.

Lemma invocations_length (obs : gmap string F) (e : WebhookEvent) :
  (length (invocations obs e) <= 2)%nat.
Proof.
  unfold invocations. rewrite length_app.
  destruct (obs !! Collection e), (obs !! "*"); simpl; lia.
Qed.

Lemma elem_of_invocations (obs : gmap string F) (e e' : WebhookEvent) (f : F) :
  (f, e) ∈ invocations obs e'
  <-> e = e' /\ (obs !! Collection e = Some f \/ obs !! "*" = Some f).
Proof.
  unfold invocations. rewrite elem_of_app. split.
  - intros [Hin|Hin].
    + destruct (obs !! Collection e') as [f'|] eqn:Hk; [|by apply elem_of_nil in Hin].
      apply list_elem_of_singleton in Hin as [= -> ->]. eauto.
    + destruct (obs !! "*") as [f'|] eqn:Hk; [|by apply elem_of_nil in Hin].
      apply list_elem_of_singleton in Hin as [= -> ->]. eauto.
  - intros [-> [Hk|Hk]]; rewrite Hk; [left|right]; by apply list_elem_of_singleton.
Qed.

End Dispatch_facts.

(** X12: a flush calls a callback with an event exactly when the event is the
    last of the batch with its composite key and the callback is registered
    under the event's collection or under the wildcard; no composite key is
    dispatched twice, and there are at most two calls for each event of the
    batch. *)
Theorem dispatch_reaches_the_registered_only
    {F : Type} (obs : gmap string F) (ex : list WebhookEvent) :
  (forall f e,
     (f, e) ∈ dispatchCalls obs ex
     <-> last (filter (fun e' => compositeKey e' = compositeKey e) ex) = Some e
         /\ (obs !! Collection e = Some f \/ obs !! "*" = Some f))
  /\ NoDup (compositeKey <$> flushEvents ex)
  /\ (length (dispatchCalls obs ex) <= 2 * length ex)%nat.
Proof.
  split; [|split].
  - intros f e. unfold dispatchCalls.
    rewrite list_elem_of_In, in_flat_map. split.
    + intros (e' & He' & Hin). apply list_elem_of_In in He', Hin.
      apply elem_of_invocations in Hin as [-> Hobs].
      by apply elem_of_flushEvents in He'.
    + intros [Hl Hobs]. exists e. split; apply list_elem_of_In.
      * by apply elem_of_flushEvents.
      * by apply elem_of_invocations.
  - unfold flushEvents.
    assert ((compositeKey <$> (map_to_list (uniqueEvents ex)).*2)
            = (map_to_list (uniqueEvents ex)).*1) as ->.
    { rewrite <- list_fmap_compose. apply Forall_fmap_ext_1, Forall_forall.
      intros [k e] Hin. apply elem_of_map_to_list in Hin. simpl.
      by apply uniqueEvents_key in Hin. }
    apply NoDup_fst_map_to_list.
  - unfold dispatchCalls. pose proof (flushEvents_length ex) as Hlen.
    assert (forall l : list WebhookEvent,
              (length (flat_map (invocations obs) l) <= 2 * length l)%nat) as Hflat.
    { induction l as [|e l IH]; simpl; [lia|].
      rewrite length_app. pose proof (invocations_length obs e). lia. }
    specialize (Hflat (flushEvents ex)). lia.
Qed.

(* ===================================================================== *)
(** ** Observed collections have a callback                              *)
(* ===================================================================== *)

Lemma pruneCollection_subscribed (c : string) (q : refreshableQueryCache) :
  subscribed q -> subscribed (state_of (refreshableQueryCache.pruneCollection c q)).
Proof.
  unfold subscribed, refreshableQueryCache.pruneCollection. intros Hs.
  destruct (sync.Lock (mu q)); [|done].
  destruct (redisCacheService.Del _ _). simpl.
  intros x Hx. apply Hs. by apply elem_of_difference in Hx as [? _].
Qed.

Lemma runObservers_subscribed (calls : list (Observer * WebhookEvent))
    (q : refreshableQueryCache) :
  subscribed q -> subscribed (state_of (runObservers calls q)).
Proof.
  revert q. induction calls as [|[f e] calls IH]; intros q Hs; [done|].
  simpl. unfold runObserver. simpl. destruct f as [c|n]; [|by apply IH].
  pose proof (pruneCollection_subscribed c q Hs) as Hp.
  destruct (refreshableQueryCache.pruneCollection c q) as [err q'|q']; [|done].
  by apply IH.
Qed.

Lemma Set_subscribed (c rq : string) (data : io.Reader) (q q' : refreshableQueryCache)
    (b : bytes) (err : error) :
  subscribed q ->
  refreshableQueryCache.Set_ c rq data q = Returned (b, err) q' ->
  subscribed q'.
Proof.
  unfold subscribed, refreshableQueryCache.Set_, redisCacheService.Set_, redis.SET,
    io.ReadAll, with_server. intros Hs.
  destruct (io.failure data); [by intros [= _ _ <-]|].
  destruct (redis.up (r (store q))); [|by intros [= _ _ <-]].
  cbn [mu store observedCollections wes].
  destruct (sync.Lock (mu q)); [|done].
  case_decide as Hobs; [by intros [= _ _ <-]|].
  cbn [mu store observedCollections wes]. unfold AddObserver.
  destruct (sync.Lock (wes_mu (wes q))); [|done].
  destruct (observes (wes q) !! c) as [f|] eqn:Hk; intros [= _ _ <-]; simpl.
  - intros x [Hx|Hx]%elem_of_union; [|by apply Hs].
    apply elem_of_singleton in Hx as ->. apply elem_of_dom. eauto.
  - rewrite dom_insert. intros x [Hx|Hx]%elem_of_union.
    + by apply elem_of_union_l.
    + by apply elem_of_union_r, Hs.
Qed.

(** X11: in a new cache every observed collection has a callback in the
    registry, and [Set] (when it returns), [pruneCollection] and the dispatch
    keep it so; [RemoveObserver] on an observed collection breaks it. *)
Theorem observed_collections_stay_subscribed
    (q : refreshableQueryCache) :
  (forall store w, subscribed (NewRefreshableQueryCache store w))
  /\ (subscribed q ->
      (forall c rq data b err q',
         refreshableQueryCache.Set_ c rq data q = Returned (b, err) q' -> subscribed q')
      /\ (forall c, subscribed (state_of (refreshableQueryCache.pruneCollection c q)))
      /\ (forall ex, subscribed (state_of (dispatch ex q))))
  /\ (forall c w', subscribed q -> c ∈ observedCollections q ->
        RemoveObserver c (wes q) = Returned tt w' ->
        ~ subscribed {| mu := mu q; store := store q;
                        observedCollections := observedCollections q; wes := w' |}).
Proof.
  split; [|split].
  - intros st w. unfold subscribed. simpl. apply empty_subseteq.
  - intros Hs. split; [|split].
    + intros c rq data b err q'. by apply Set_subscribed.
    + intros c. by apply pruneCollection_subscribed.
    + intros ex. unfold dispatch.
      destruct (sync.RLock (wes_mu (wes q))) as [held|]; [|done].
      pose proof (runObservers_subscribed
                    (dispatchCalls (observes (wes (with_wes_mu q held))) ex)
                    (with_wes_mu q held) Hs) as Hrun.
      by destruct (runObservers _ _) as [[] q'|q'].
  - intros c w' Hs Hc. unfold RemoveObserver.
    destruct (sync.RLock (wes_mu (wes q))); [|done]. intros [= <-].
    unfold subscribed. simpl. intros Hsub. apply Hsub in Hc.
    apply elem_of_dom in Hc as [f Hf]. by rewrite lookup_delete_eq in Hf.
Qed.

Lemma observed_stay_subscribed_after_Set :
  subscribed (stored "users" "a" "one" (cacheOver true)).
Proof.
  apply (proj1 (proj1 (proj2 (observed_collections_stay_subscribed (cacheOver true)))
                  (proj1 (observed_collections_stay_subscribed (cacheOver true)) _ _))
           "users" "a" (io.NewReader (list_byte_of_string "one"))
           (list_byte_of_string "one") None (stored "users" "a" "one" (cacheOver true))).
  vm_compute. reflexivity.
Defined.

(* ===================================================================== *)
(** ** The pipeline and the handler                                      *)
(* ===================================================================== *)

Lemma run1_pending (st : flux.step) (p p' : flux.t) :
  flux.run1 st p = Some p' -> pending p' = pending p ++ submitted [st].
Proof.
  unfold pending, submitted.
  destruct st as [we| |]; simpl; unfold flux.send, flux.collect, flux.tick.
  - case_decide; [|done]. intros [= <-]. simpl. by rewrite !app_assoc.
  - destruct (flux.inChan p) as [|e rest] eqn:Hin; [done|]. intros [= <-]. simpl.
    rewrite app_nil_r. by rewrite <- !app_assoc.
  - destruct (flux.buf p) as [|e b] eqn:Hb.
    + intros [= <-]. by rewrite Hb, app_nil_r.
    + case_decide; [|done]. intros [= <-]. simpl.
      rewrite concat_app. simpl. by rewrite !app_nil_r, <- !app_assoc.
Qed.

Lemma run_pending (steps : list flux.step) (p p' : flux.t) :
  flux.run steps p = Some p' -> pending p' = pending p ++ submitted steps.
Proof.
  revert p. induction steps as [|st steps IH]; intros p; simpl.
  - intros [= <-]. unfold submitted. simpl. by rewrite app_nil_r.
  - destruct (flux.run1 st p) as [p1|] eqn:H1; [|done]. intros Hrun.
    rewrite (IH _ Hrun), (run1_pending _ _ _ H1).
    rewrite <- app_assoc. f_equal. unfold submitted. simpl.
    by destruct st.
Qed.

Lemma receive_pending (p p' : flux.t) (ex : list WebhookEvent) :
  flux.receive p = Some (ex, p') -> pending p = ex ++ pending p'.
Proof.
  unfold flux.receive, pending. destruct (flux.outChan p) as [|b rest]; [done|].
  intros [= <- <-]. simpl. by rewrite <- !app_assoc.
Qed.

Lemma run1_bounded (st : flux.step) (p p' : flux.t) :
  flux.run1 st p = Some p' -> bounded p -> bounded p'.
Proof.
  unfold bounded. intros Hst (Hin & Hout & Hne).
  destruct st as [we| |]; simpl in Hst;
    unfold flux.send, flux.collect, flux.tick in Hst.
  - case_decide; [|done]. injection Hst as <-. simpl.
    rewrite length_app. simpl. unfold flux.capacity in *. repeat split; [lia|done..].
  - destruct (flux.inChan p) as [|e rest] eqn:Hi; [done|]. injection Hst as <-.
    simpl in *. repeat split; [lia|done..].
  - destruct (flux.buf p) as [|e b] eqn:Hb.
    + by injection Hst as <-.
    + case_decide; [|done]. injection Hst as <-. simpl.
      rewrite length_app. simpl. unfold flux.capacity in *.
      repeat split; [done|lia|]. apply Forall_app. split; [done|].
      by repeat constructor.
Qed.

Lemma run_bounded (steps : list flux.step) (p p' : flux.t) :
  flux.run steps p = Some p' -> bounded p -> bounded p'.
Proof.
  revert p. induction steps as [|st steps IH]; intros p; simpl.
  - by intros [= <-].
  - destruct (flux.run1 st p) as [p1|] eqn:H1; [|done]. intros Hrun Hb.
    eapply IH; [done|]. by eapply run1_bounded.
Qed.

(** X13: in every state that a schedule of sends, collects and ticks reaches
    from the empty pipeline, the pipeline holds exactly the events submitted,
    in their order; both channels are within their capacity; and a batch that
    the dispatch goroutine receives is not empty and is the oldest part of
    what was submitted. *)
Theorem pipeline_is_a_queue (steps : list flux.step) (p : flux.t) :
  flux.run steps flux.empty = Some p ->
  pending p = submitted steps
  /\ bounded p
  /\ forall ex p', flux.receive p = Some (ex, p') ->
       ex <> [] /\ submitted steps = ex ++ pending p' /\ bounded p'.
Proof.
  intros Hrun.
  assert (pending p = submitted steps) as Hpend
    by (by rewrite (run_pending _ _ _ Hrun)).
  assert (bounded flux.empty) as Hb0.
  { unfold bounded, flux.capacity. simpl. repeat split; [lia|lia|constructor]. }
  pose proof (run_bounded _ _ _ Hrun Hb0) as Hb.
  split; [done|]. split; [done|].
  intros ex p' Hrec. pose proof (receive_pending _ _ _ Hrec) as Hp.
  rewrite <- Hpend. split; [|split; [done|]].
  - destruct Hb as (_ & _ & Hne). unfold flux.receive in Hrec.
    destruct (flux.outChan p) as [|b rest]; [done|]. injection Hrec as <- <-.
    by inversion Hne.
  - destruct Hb as (Hin & Hout & Hne). unfold flux.receive in Hrec.
    unfold bounded. destruct (flux.outChan p) as [|b rest]; [done|].
    injection Hrec as <- <-. simpl in *. inversion Hne. repeat split; [done|lia|done].
Qed.

Lemma pipeline_is_a_queue_two_events :
  pending {| flux.inChan := [eventOf "update" "2" "orders" "b"];
             flux.buf := [];
             flux.outChan := [[eventOf "update" "1" "orders" "a"]] |}
  = submitted [flux.Send (eventOf "update" "1" "orders" "a"); flux.Collect; flux.Tick;
               flux.Send (eventOf "update" "2" "orders" "b")].
Proof.
  apply (pipeline_is_a_queue
           [flux.Send (eventOf "update" "1" "orders" "a"); flux.Collect; flux.Tick;
            flux.Send (eventOf "update" "2" "orders" "b")]).
  reflexivity.
Defined.

(** X14: whenever the handler answers, either the status is 200, nothing is
    written and exactly the decoded event was added to the input channel, or
    the status is 400 or 405 and the pipeline is untouched; and it waits only
    with a decoded event and a full input channel. *)
Theorem handler_queues_only_what_it_accepts
    (Decode : bytes -> string + WebhookEvent) (req : IngestRequest) (p : flux.t) :
  (forall w p', handler Decode req p = Some (w, p') ->
     (http.status w = 200 /\ http.written w = ""
      /\ exists we, Decode (in_Body req) = inr we
                    /\ p' = {| flux.inChan := flux.inChan p ++ [we];
                               flux.buf := flux.buf p;
                               flux.outChan := flux.outChan p |})
     \/ ((http.status w = 400 \/ http.status w = 405) /\ p' = p))
  /\ (handler Decode req p = None ->
        (exists we, Decode (in_Body req) = inr we)
        /\ (flux.capacity <= length (flux.inChan p))%nat).
Proof.
  unfold handler, flux.send.
  destruct (negb (in_Method req =? "POST")%string).
  { split; [|done]. intros w p' [= <- <-]. right. split; [by right|done]. }
  destruct (negb (_ =? "application/json")%string).
  { split; [|done]. intros w p' [= <- <-]. right. split; [by left|done]. }
  destruct (Decode (in_Body req)) as [err|we].
  { split; [|done]. intros w p' [= <- <-]. right. split; [by left|done]. }
  case_decide as Hroom.
  - split; [|done]. intros w p' [= <- <-]. left. eauto.
  - split; [done|]. intros _. split; [eauto|lia].
Qed.

Lemma handler_rejects_without_queueing :
  (http.status (http.Error "EOF" 400) = 200 /\ http.written (http.Error "EOF" 400) = ""
   /\ exists we, sampleDecode (in_Body (ingest "POST" "application/json" "")) = inr we
                 /\ flux.empty = {| flux.inChan := flux.inChan flux.empty ++ [we];
                                    flux.buf := flux.buf flux.empty;
                                    flux.outChan := flux.outChan flux.empty |})
  \/ ((http.status (http.Error "EOF" 400) = 400 \/ http.status (http.Error "EOF" 400) = 405)
      /\ flux.empty = flux.empty).
Proof.
  apply (proj1 (handler_queues_only_what_it_accepts sampleDecode
                  (ingest "POST" "application/json" "") flux.empty)).
  reflexivity.
Defined.

(** X15: a POST with Content-Type application/json whose body decodes, on an
    empty pipeline: the handler answers 200; after the collect and the tick the
    dispatch goroutine receives the batch of this one event and calls the
    callback of the event's collection once with it (no wildcard callback
    being registered). *)
Theorem accepted_notification_reaches_its_observer
    {F : Type} (Decode : bytes -> string + WebhookEvent) (req : IngestRequest)
    (we : WebhookEvent) (obs : gmap string F) (f : F) :
  in_Method req = "POST" ->
  http.Header_Get (in_Header req) "Content-Type" = "application/json" ->
  Decode (in_Body req) = inr we ->
  obs !! Collection we = Some f ->
  obs !! "*" = None ->
  exists p1 p2,
    handler Decode req flux.empty
    = Some ({| http.status := 200; http.written := "" |}, p1)
    /\ flux.run [flux.Collect; flux.Tick] p1 = Some p2
    /\ flux.receive p2 = Some ([we], flux.empty)
    /\ dispatchCalls obs [we] = [(f, we)].
Proof.
  intros Hm Hct Hd Hobs Hstar. unfold handler.
  apply String.eqb_eq in Hm, Hct. rewrite Hm, Hct, Hd. simpl.
  do 2 eexists. split; [reflexivity|]. split; [reflexivity|]. split; [reflexivity|].
  rewrite dispatchCalls_one. unfold invocations. by rewrite Hobs, Hstar.
Qed.

Lemma accepted_notification_orders :
  exists p1 p2,
    handler sampleDecode (ingest "POST" "application/json" "{}") flux.empty
    = Some ({| http.status := 200; http.written := "" |}, p1)
    /\ flux.run [flux.Collect; flux.Tick] p1 = Some p2
    /\ flux.receive p2 = Some ([eventOf "update" "7" "orders" "null"], flux.empty)
    /\ dispatchCalls ({["orders" := 1%nat]} : gmap string nat)
         [eventOf "update" "7" "orders" "null"]
       = [(1%nat, eventOf "update" "7" "orders" "null")].
Proof.
  apply (accepted_notification_reaches_its_observer sampleDecode
           (ingest "POST" "application/json" "{}")
           (eventOf "update" "7" "orders" "null")
           ({["orders" := 1%nat]} : gmap string nat) 1%nat); try reflexivity.
Defined.

(* ===================================================================== *)
(** ** The request path, case by case                                    *)
(* ===================================================================== *)

Section Call_generic.

Context {Q : Type} `{!QueryCache Q}.
Variable Do : Request -> result Response.
Variable d : DirectusClient.

(** [Call] by its cases, for any cache. *)
Lemma Call_cases (req : Request) (q : Q) :
  Call Do d req q =
    if negb (allowedMethod (Method req)) then Returned (Err "invalid method") q
    else match ReqURL req with
         | None => Returned (Err "url is required") q
         | Some u =>
             match strings.SplitN2 (Path u) "items/" with
             | [_; collection] =>
                 match cacheGet collection (RawQuery (prepareURL d u)) q with
                 | Ok data => Returned (Ok {| StatusCode := 200; Body := data |}) q
                 | Err _ =>
                     match Do (prepare d req u) with
                     | Err err => Returned (Err err) q
                     | Ok resp =>
                         if StatusCode resp =? 200 then
                           match cacheSet collection (RawQuery (prepareURL d u))
                                   (Body resp) q with
                           | Blocked q' => Blocked q'
                           | Returned (data, _) q' =>
                               Returned (Ok {| StatusCode := StatusCode resp;
                                               Body := io.NewReader data |}) q'
                           end
                         else Returned (Ok resp) q
                     end
                 end
             | _ => Returned (Err "invalid url") q
             end
         end.
Proof. reflexivity. Qed.

End Call_generic.

(** X16: [Call] returns an error in exactly four cases, and the cache is then as
    it was: a method outside GET, POST, PATCH, DELETE; no URL; a path without
    "items/"; and, after a miss, the error of the origin. *)
Theorem Call_errors_are_these_four
    {Q : Type} `{!QueryCache Q} (Do : Request -> result Response)
    (d : DirectusClient) (req : Request) (q q' : Q) (msg : string) :
  Call Do d req q = Returned (Err msg) q'
  <-> q' = q
      /\ ((allowedMethod (Method req) = false /\ msg = "invalid method")
          \/ (allowedMethod (Method req) = true /\ ReqURL req = None
              /\ msg = "url is required")
          \/ (allowedMethod (Method req) = true
              /\ exists u, ReqURL req = Some u
                           /\ strings.Cut (Path u) "items/" = None
                           /\ msg = "invalid url")
          \/ (allowedMethod (Method req) = true
              /\ exists u pre c miss,
                   ReqURL req = Some u
                   /\ strings.Cut (Path u) "items/" = Some (pre, c)
                   /\ cacheGet c (RawQuery (prepareURL d u)) q = Err miss
                   /\ Do (prepare d req u) = Err msg)).
Proof.
  rewrite Call_cases. unfold strings.SplitN2. split.
  - destruct (allowedMethod (Method req)); cbn [negb].
    2: { intros [= <- <-]. split; [done|]. by left. }
    destruct (ReqURL req) as [u|].
    2: { intros [= <- <-]. split; [done|]. right. by left. }
    destruct (strings.Cut (Path u) "items/") as [[pre c]|] eqn:HCut.
    2: { intros [= <- <-]. split; [done|]. right. right. left.
         split; [done|]. by exists u. }
    destruct (cacheGet _ _ _) as [data|miss] eqn:Hget; [done|].
    destruct (Do (prepare d req u)) as [resp|err] eqn:HDo.
    2: { intros [= <- <-]. split; [done|]. do 3 right. split; [done|].
         by exists u, pre, c, miss. }
    destruct (StatusCode resp =? 200); [|done].
    destruct (cacheSet _ _ _ _) as [[b e] q1|q1]; done.
  - intros [-> [[-> ->]|[(-> & -> & ->)|[(-> & u & -> & -> & ->)|
                (-> & u & pre & c & miss & -> & -> & Hget & HDo)]]]]; cbn [negb];
      try done.
    by rewrite Hget, HDo.
Qed.

(** X17: on a miss, a response of the origin whose status is not 200 is
    returned as it is, and the cache stays as it was. *)
Theorem Call_passes_other_statuses_through
    {Q : Type} `{!QueryCache Q} (Do : Request -> result Response)
    (d : DirectusClient) (req : Request) (u : URL) (pre c msg : string)
    (resp : Response) (q : Q) :
  allowedMethod (Method req) = true ->
  ReqURL req = Some u ->
  strings.SplitN2 (Path u) "items/" = [pre; c] ->
  cacheGet c (RawQuery (prepareURL d u)) q = Err msg ->
  Do (prepare d req u) = Ok resp ->
  StatusCode resp <> 200 ->
  Call Do d req q = Returned (Ok resp) q.
Proof.
  intros Hm Hu Hp Hget HDo Hst. rewrite Call_cases, Hm, Hu, Hp, Hget, HDo. simpl.
  apply Z.eqb_neq in Hst. by rewrite Hst.
Qed.

Lemma Call_404_is_not_cached :
  Call originNotFound localClient (usersRequest "GET") (cacheOver true)
  = Returned (Ok {| StatusCode := 404;
                    Body := io.NewReader (list_byte_of_string "not found") |})
      (cacheOver true).
Proof.
  apply (Call_passes_other_statuses_through originNotFound localClient
           (usersRequest "GET")
           {| Scheme := ""; Host := ""; Path := "/items/users"; RawQuery := "limit=100" |}
           "/" "users" redis.Nil); try reflexivity.
  discriminate.
Defined.

(** X18: a request without a raw query is served exactly as the same request
    with the raw query limit=1000. *)
Theorem Call_without_query_asks_for_the_limit
    {Q : Type} `{!QueryCache Q} (Do : Request -> result Response)
    (d : DirectusClient) (req : Request) (q : Q) :
  Call Do d (withRawQuery req "") q = Call Do d (withRawQuery req "limit=1000") q.
Proof.
  rewrite !Call_cases. unfold withRawQuery. simpl.
  destruct (allowedMethod (Method req)); [|done]. simpl.
  destruct (ReqURL req) as [u|]; [|done]. simpl.
  reflexivity.
Qed.

(** X19: with the no-op cache a 200 response of the origin comes back with
    the bytes that were read from its body, also when the reading ended in an
    error, which is dropped. *)
Theorem Call_with_noop_cache_hands_back_what_was_read
    (Do : Request -> result Response) (d : DirectusClient) (req : Request) (u : URL)
    (pre c : string) (resp : Response) :
  allowedMethod (Method req) = true ->
  ReqURL req = Some u ->
  strings.SplitN2 (Path u) "items/" = [pre; c] ->
  Do (prepare d req u) = Ok resp ->
  StatusCode resp = 200 ->
  Call Do d req tt
  = Returned (Ok {| StatusCode := 200;
                    Body := io.NewReader (io.content (Body resp)) |}) tt.
Proof.
  intros Hm Hu Hp HDo Hst. rewrite Call_cases, Hm, Hu, Hp. simpl.
  by rewrite HDo, Hst.
Qed.

Lemma Call_with_noop_cache_drops_read_error :
  Call originTruncated localClient (usersRequest "GET") tt
  = Returned (Ok {| StatusCode := 200;
                    Body := io.NewReader (list_byte_of_string "par") |}) tt.
Proof.
  apply (Call_with_noop_cache_hands_back_what_was_read originTruncated localClient
           (usersRequest "GET")
           {| Scheme := ""; Host := ""; Path := "/items/users"; RawQuery := "limit=100" |}
           "/" "users"
           {| StatusCode := 200;
              Body := {| io.content := list_byte_of_string "par";
                         io.failure := Some "unexpected EOF" |} |}); reflexivity.
Defined.

(* ===================================================================== *)
(** ** The proxy and the constructor of the client                       *)
(* ===================================================================== *)

Lemma CutPrefix_empty (s : string) : strings.CutPrefix s "" = Some s.
Proof. by destruct s. Qed.

Lemma Cut_leading_sep (b : string) : strings.Cut (String "/" b) "/" = Some (""%string, b).
Proof. simpl. by rewrite CutPrefix_empty. Qed.

Lemma Cut_at_first_sep (a b : string) :
  strings.ContainsByte a "/" = false ->
  strings.Cut (a ++ String "/" b) "/" = Some (a, b).
Proof.
  induction a as [|x a IH]; [intros _; apply Cut_leading_sep|].
  simpl. intros [Hx Ha]%orb_false_iff.
  change (String x a ++ String "/" b)%string with (String x (a ++ String "/" b)).
  simpl. rewrite Hx, (IH Ha). done.
Qed.

Lemma Cut_without_sep (s : string) :
  strings.ContainsByte s "/" = false -> strings.Cut s "/" = None.
Proof.
  induction s as [|x s IH]; [reflexivity|].
  simpl. intros [Hx Hs]%orb_false_iff. by rewrite Hx, (IH Hs).
Qed.

Lemma SplitN_joinPath (segs : list string) (rest : string) :
  Forall (fun seg => strings.ContainsByte seg "/" = false) segs ->
  SplitN (joinPath segs rest) "/" (S (length segs)) = segs ++ [rest].
Proof.
  induction 1 as [|seg segs Hseg Hsegs IH]; [reflexivity|].
  change (SplitN (joinPath (seg :: segs) rest) "/" (S (length (seg :: segs))))
    with (match strings.Cut (seg ++ String "/" (joinPath segs rest)) "/" with
          | Some (before, after) => before :: SplitN after "/" (S (length segs))
          | None => [(seg ++ String "/" (joinPath segs rest))%string]
          end).
  by rewrite (Cut_at_first_sep _ _ Hseg), IH.
Qed.

Lemma SplitN_length (s : string) (n : nat) :
  (length (SplitN s "/" n) <= n)%nat.
Proof.
  revert s. induction n as [|n IH]; intros s; [done|].
  destruct n as [|n]; [done|].
  change (SplitN s "/" (S (S n)))
    with (match strings.Cut s "/" with
          | Some (before, after) => before :: SplitN after "/" (S n)
          | None => [s]
          end).
  destruct (strings.Cut s "/") as [[a b]|]; cbn [length]; [|lia].
  specialize (IH b). lia.
Qed.

Lemma SplitN_without_sep (s : string) (n : nat) :
  strings.ContainsByte s "/" = false -> SplitN s "/" (S n) = [s].
Proof.
  intros Hs. destruct n as [|n]; [done|].
  change (SplitN s "/" (S (S n)))
    with (match strings.Cut s "/" with
          | Some (before, after) => before :: SplitN after "/" (S n)
          | None => [s]
          end).
  by rewrite Cut_without_sep.
Qed.

Lemma SplitN_joinPath_all (segs : list string) (rest : string) :
  Forall (fun seg => strings.ContainsByte seg "/" = false) segs ->
  strings.ContainsByte rest "/" = false ->
  forall n, (length segs < n)%nat -> SplitN (joinPath segs rest) "/" n = segs ++ [rest].
Proof.
  intros Hsegs Hrest. induction Hsegs as [|seg segs Hseg Hsegs IH]; intros n Hn.
  - destruct n as [|n]; [lia|]. by apply SplitN_without_sep.
  - destruct n as [|[|n]]; [simpl in Hn; lia..|].
    change (SplitN (joinPath (seg :: segs) rest) "/" (S (S n)))
      with (match strings.Cut (seg ++ String "/" (joinPath segs rest)) "/" with
            | Some (before, after) => before :: SplitN after "/" (S n)
            | None => [(seg ++ String "/" (joinPath segs rest))%string]
            end).
    rewrite (Cut_at_first_sep _ _ Hseg), IH; [done|]. simpl in Hn. lia.
Qed.

Lemma stripPath_segments (segs : list string) (rest : string) :
  Forall (fun seg => strings.ContainsByte seg "/" = false) segs ->
  stripPath (length segs) (joinPath ("" :: segs) rest) = ("/" ++ rest)%string
  /\ (strings.ContainsByte rest "/" = false ->
        stripPath (S (length segs)) (joinPath ("" :: segs) rest)
        = joinPath ("" :: segs) rest).
Proof.
  intros Hsegs.
  assert (Forall (fun seg => strings.ContainsByte seg "/" = false) ("" :: segs)) as Hall
    by (by constructor).
  unfold stripPath. split.
  - replace (length segs + 2)%nat with (S (length ("" :: segs))) by (simpl; lia).
    rewrite (SplitN_joinPath _ _ Hall).
    rewrite decide_True by (rewrite length_app; simpl; lia).
    by rewrite last_snoc.
  - intros Hrest.
    rewrite (SplitN_joinPath_all _ _ Hall Hrest) by (simpl; lia).
    rewrite decide_False; [done|]. simpl. rewrite length_app. simpl. lia.
Qed.

(** X20: [Proxy(stripN)] rewrites the path /s1/.../sN/rest (no slash inside
    the N = stripN segments) to /rest; a path with one segment less than that,
    and no slash in the rest, is left as it is. *)
Theorem stripPath_drops_leading_segments (segs : list string) (rest : string) :
  Forall (fun seg => strings.ContainsByte seg "/" = false) segs ->
  stripPath (length segs) (joinPath ("" :: segs) rest) = ("/" ++ rest)%string
  /\ (strings.ContainsByte rest "/" = false ->
        stripPath (S (length segs)) (joinPath ("" :: segs) rest)
        = joinPath ("" :: segs) rest).
Proof. apply stripPath_segments. Qed.

Lemma stripPath_forward_items :
  stripPath (length ["forward"; "aaafff"])
    (joinPath (""%string :: ["forward"; "aaafff"]) "items/user")
  = ("/" ++ "items/user")%string.
Proof.
  apply (stripPath_drops_leading_segments ["forward"; "aaafff"] "items/user").
  repeat constructor.
Defined.

Lemma Cut_items (c : string) :
  strings.Cut (String "/" ("items/" ++ c)) "items/" = Some ("/"%string, c).
Proof. simpl. by rewrite CutPrefix_empty. Qed.

Lemma default_limit :
  ("limit=" ++ strconv.Itoa ITEMS_MAX_LIMIT)%string = "limit=1000".
Proof. by vm_compute. Qed.

(** X21: on a path /s1/.../sN/items/c, [Proxy(N)] answers 500 with the text
    "invalid method" for a method that [Call] refuses; forwards a 200 with the
    cached bytes on a hit under the collection c; and answers 500 with the
    origin's error when the cache misses and the origin fails. *)
Theorem Proxy_serves_the_stripped_path
    {Q : Type} `{!QueryCache Q} (Do : Request -> result Response)
    (d : DirectusClient) (req : Request) (u : URL) (segs : list string) (c : string)
    (q : Q) :
  Forall (fun seg => strings.ContainsByte seg "/" = false) segs ->
  Path u = joinPath ("" :: segs) ("items/" ++ c) ->
  (allowedMethod (Method req) = false ->
     Proxy Do (length segs) d req u q
     = Returned (Failed {| http.status := 500;
                           http.written := "invalid method" ++ String "010"%char "" |}) q)
  /\ (allowedMethod (Method req) = true ->
      forall data,
        cacheGet c (if (RawQuery u =? "")%string then "limit=1000" else RawQuery u) q
        = Ok data ->
        Proxy Do (length segs) d req u q
        = Returned (Forwarded {| StatusCode := 200; Body := data |}) q)
  /\ (allowedMethod (Method req) = true ->
      forall msg err,
        cacheGet c (if (RawQuery u =? "")%string then "limit=1000" else RawQuery u) q
        = Err msg ->
        Do (prepare d req {| Scheme := Scheme u; Host := Host u;
                             Path := "/" ++ "items/" ++ c; RawQuery := RawQuery u |})
        = Err err ->
        Proxy Do (length segs) d req u q
        = Returned (Failed {| http.status := 500;
                              http.written := err ++ String "010"%char "" |}) q).
Proof.
  intros Hsegs Hpath. unfold Proxy.
  rewrite Hpath, (proj1 (stripPath_segments segs ("items/" ++ c) Hsegs)).
  rewrite Call_cases. cbn [Method ReqURL Path].
  change ("/" ++ "items/" ++ c)%string with (String "/" ("items/" ++ c)).
  unfold strings.SplitN2. rewrite Cut_items.
  split; [|split].
  - by intros ->.
  - intros -> data Hget. cbn [negb]. unfold prepareURL. cbn [RawQuery].
    rewrite default_limit. by rewrite Hget.
  - intros -> msg err Hget HDo. cbn [negb]. unfold prepareURL at 1. cbn [RawQuery].
    rewrite default_limit, Hget. unfold prepare in *.
    cbn [Method ReqHeader ReqBody] in *. by rewrite HDo.
Qed.

Lemma Proxy_forward_hit :
  Proxy (originOK "fresh") (length ["forward"; "aaafff"]) localClient
    (forwardRequest "GET") forwardURL
    (stored "users" "limit=100" "cached" (cacheOver true))
  = Returned
      (Forwarded {| StatusCode := 200;
                    Body := io.NewReader (list_byte_of_string "cached") |})
      (stored "users" "limit=100" "cached" (cacheOver true)).
Proof.
  apply (proj1 (proj2 (Proxy_serves_the_stripped_path
                         (originOK "fresh") localClient (forwardRequest "GET")
                         forwardURL ["forward"; "aaafff"] "users"
                         (stored "users" "limit=100" "cached" (cacheOver true))
                         ltac:(repeat constructor) eq_refl))).
  - reflexivity.
  - vm_compute. reflexivity.
Defined.

Lemma lastByte_snoc (s : string) (a : ascii) :
  strings.lastByte (s ++ String a "") = Some a.
Proof.
  induction s as [|b s IH]; [done|].
  change (String b s ++ String a "")%string with (String b (s ++ String a "")).
  cbn [strings.lastByte]. rewrite IH. by destruct s.
Qed.

Lemma dropLast_snoc (s : string) (a : ascii) : dropLast (s ++ String a "") = s.
Proof.
  induction s as [|b s IH]; [done|].
  change (String b s ++ String a "")%string with (String b (s ++ String a "")).
  cbn [dropLast]. rewrite IH. by destruct s.
Qed.

(** X22: [NewDirectusClient] refuses an empty token whatever the address; one
    slash at the end of the address makes no difference to the client that is
    built. *)
Theorem NewDirectusClient_trims_one_slash
    (Parse : string -> result URL) (base token : string) :
  NewDirectusClient Parse base "" = Err "token is required"
  /\ (HasSuffixSlash base = false ->
      NewDirectusClient Parse (base ++ "/") token = NewDirectusClient Parse base token)
  /\ (token <> "" ->
      HasSuffixSlash base = false ->
      forall u, Parse base = Ok u ->
        NewDirectusClient Parse (base ++ "/") token
        = Ok {| baseURL := u; token := token |}).
Proof.
  unfold NewDirectusClient. split; [done|].
  assert (HasSuffixSlash (base ++ "/") = true) as Hslash
    by (unfold HasSuffixSlash; by rewrite lastByte_snoc).
  split.
  - intros Hbase. by rewrite Hslash, Hbase, dropLast_snoc.
  - intros Htok Hbase u HParse. apply String.eqb_neq in Htok.
    by rewrite Htok, Hslash, dropLast_snoc, HParse.
Qed.

Lemma NewDirectusClient_local :
  NewDirectusClient parseLocal ("https://localhost:8050" ++ "/") "secret"
  = Ok {| baseURL := {| Scheme := "https"; Host := "localhost:8050"; Path := "";
                        RawQuery := "" |};
          token := "secret" |}.
Proof.
  apply (proj2 (proj2 (NewDirectusClient_trims_one_slash parseLocal
                         "https://localhost:8050" "secret"))); try reflexivity.
  discriminate.
Defined.

(* ===================================================================== *)
(** ** Structured queries                                                *)
(* ===================================================================== *)









Lemma validate_None {FilterT : Type} (d : DirectusQuery FilterT) :
  validate d = None
  <-> Limit d <= ITEMS_MAX_LIMIT /\ Filter d <> None
      /\ offsetIsSet d && pageIsSet d = false.
Proof.
  unfold validate. destruct (Z.gtb_spec (Limit d) ITEMS_MAX_LIMIT).
  - split; [done|]. intros [? _]. lia.
  - destruct (Filter d); [|by split; [|intros (_ & ? & _)]].
    destruct (offsetIsSet d && pageIsSet d); split; try done.
    by intros (_ & _ & ?).
Qed.

(** X23: [Query] refuses every query without a filter before it reaches the
    cache or the origin (with "limit must be less than 100" when the limit is
    above 1000, else with "limit must be set if filter is not set"), and
    [ParseQuery] returns an error for every query string without a filter or
    with a filter that decodes to nil. *)
Theorem queries_without_filter_are_refused
    {FilterT : Type} (Marshal : FilterT -> result string)
    (Unmarshal : string -> result (option FilterT))
    (Quote : string -> string) (Encode : url.Values -> string)
    {Q : Type} `{!QueryCache Q} (Do : Request -> result Response)
    (d : DirectusClient) (method collection : string)
    (query : DirectusQuery FilterT) (input : option bytes) (q : Q) (v : url.Values) :
  (Filter query = None ->
     Query FilterT Marshal Encode Do d method collection query input q
     = Returned (Err (if Limit query >? 1000 then "limit must be less than 100"
                      else "limit must be set if filter is not set")) q)
  /\ (url.Get v "filter" = "" \/ Unmarshal (url.Get v "filter") = Ok None ->
      exists msg, ParseQuery FilterT Unmarshal Quote v = Err msg).
Proof.
  split.
  - intros Hf. unfold Query, validate. rewrite Hf.
    change ITEMS_MAX_LIMIT with 1000. by destruct (Limit query >? 1000).
  - intros Hfilter. unfold ParseQuery.
    assert ((if (url.Get v "filter" =? "")%string then Ok None
             else Unmarshal (url.Get v "filter")) = Ok None) as ->.
    { destruct Hfilter as [-> | Hnull]; [done|].
      by destruct (url.Get v "filter" =? "")%string. }
    repeat match goal with
      | |- context [match (if ?b then _ else _) with _ => _ end] => destruct b
      | |- context [match atoi.Atoi ?Q ?s with _ => _ end] =>
          destruct (atoi.Atoi Q s)
      | |- context [match MetaField.Unmarshal ?s with _ => _ end] =>
          destruct (MetaField.Unmarshal s)
      end; eauto;
      unfold validate; cbn [Limit Filter];
      match goal with |- context [?a >? ?b] => destruct (a >? b) end; eauto.
Qed.

Lemma MetaField_Unmarshal_Ok (s m : string) :
  MetaField.Unmarshal s = Ok m
  <-> m = s /\ (s = "*" \/ s = "total_count" \/ s = "filter_count").
Proof.
  unfold MetaField.Unmarshal, MetaField.MetaQueryAll, MetaField.MetaQueryTotalCount,
    MetaField.MetaQueryFilterCount.
  destruct (String.eqb_spec s "*") as [->|H1]; [split; [intros [= <-]|]; eauto; by intros [-> _]|].
  destruct (String.eqb_spec s "total_count") as [->|H2];
    [split; [intros [= <-]|]; eauto; by intros [-> _]|].
  destruct (String.eqb_spec s "filter_count") as [->|H3];
    [split; [intros [= <-]|]; eauto; by intros [-> _]|].
  split; [done|]. intros [_ [?|[?|?]]]; done.
Qed.

(** X24: a query that [ParseQuery] returns passes [validate]: its limit is at
    most 1000 (1000 when none was given), it has a filter, offset and page are
    marked set exactly when they were given and never both, fields and sort
    are empty when not given, and meta is absent or one of the three meta
    fields. *)
Theorem ParseQuery_yields_valid_queries
    {FilterT : Type} (Unmarshal : string -> result (option FilterT))
    (Quote : string -> string) (v : url.Values) (d : DirectusQuery FilterT) :
  ParseQuery FilterT Unmarshal Quote v = Ok d ->
  validate d = None
  /\ Limit d <= 1000
  /\ is_Some (Filter d)
  /\ (url.Get v "limit" = "" -> Limit d = 1000)
  /\ offsetIsSet d = negb (url.Get v "offset" =? "")%string
  /\ pageIsSet d = negb (url.Get v "page" =? "")%string
  /\ (offsetIsSet d = false \/ pageIsSet d = false)
  /\ (url.Get v "fields" = "" -> Fields d = [])
  /\ (url.Get v "sort" = "" -> Sort d = [])
  /\ (Meta d = None /\ url.Get v "meta" = ""
      \/ Meta d = Some (url.Get v "meta")
         /\ (url.Get v "meta" = "*" \/ url.Get v "meta" = "total_count"
             \/ url.Get v "meta" = "filter_count")).
Proof.
  unfold ParseQuery.
  destruct (if (url.Get v "filter" =? "")%string then _ else _) as [dFilter|]; [|done].
  destruct (if (url.Get v "limit" =? "")%string then _ else _) as [dLimit|] eqn:HL; [|done].
  destruct (if (url.Get v "offset" =? "")%string then _ else _)
    as [[dOffset dOffsetIsSet]|] eqn:HO; [|done].
  destruct (if (url.Get v "page" =? "")%string then _ else _)
    as [[dPage dPageIsSet]|] eqn:HP; [|done].
  destruct (if (url.Get v "meta" =? "")%string then _ else _) as [dMeta|] eqn:HM; [|done].
  destruct (validate _) eqn:Hval; [done|]. intros [= <-].
  pose proof Hval as Hv. apply validate_None in Hv as (Hlim & Hfil & Hboth).
  cbn [Limit Filter offsetIsSet pageIsSet Fields Sort Meta] in *.
  change ITEMS_MAX_LIMIT with 1000 in *.
  split; [done|]. split; [done|].
  split; [by destruct dFilter|].
  split; [intros Hl; rewrite Hl in HL; by injection HL as <-|].
  split.
  { destruct (url.Get v "offset" =? "")%string; [by injection HO as _ <-|].
    destruct (atoi.Atoi Quote (url.Get v "offset")); [by injection HO as _ <-|done]. }
  split.
  { destruct (url.Get v "page" =? "")%string; [by injection HP as _ <-|].
    destruct (atoi.Atoi Quote (url.Get v "page")); [by injection HP as _ <-|done]. }
  split; [destruct dOffsetIsSet, dPageIsSet; auto|].
  split; [by intros ->|]. split; [by intros ->|].
  destruct (String.eqb_spec (url.Get v "meta") "") as [Hm|Hm].
  - left. by injection HM as <-.
  - right. destruct (MetaField.Unmarshal _) as [m|] eqn:HU; [|done].
    injection HM as <-. apply MetaField_Unmarshal_Ok in HU as [-> HU]. done.
Qed.











Lemma query_without_filter_refused :
  Query string sampleMarshal sampleEncode (originOK "x") localClient "GET" "users"
    (zeroQuery string) None (cacheOver true)
  = Returned (Err "limit must be set if filter is not set") (cacheOver true).
Proof.
  apply (proj1 (queries_without_filter_are_refused sampleMarshal sampleUnmarshal
                  sampleQuote sampleEncode (originOK "x") localClient "GET" "users"
                  (zeroQuery string) None (cacheOver true) ∅)).
  reflexivity.
Defined.

Lemma ParseQuery_filter_only :
  ParseQuery string sampleUnmarshal sampleQuote (url.Set_ ∅ "filter" "{}")
  = Ok {| Fields := []; Filter := Some "{}"; Sort := []; Limit := 1000; Offset := 0;
          offsetIsSet := false; Page := 0; pageIsSet := false; Meta := None |}
  /\ validate {| Fields := []; Filter := Some "{}"; Sort := []; Limit := 1000;
                  Offset := 0; offsetIsSet := false; Page := 0; pageIsSet := false;
                  Meta := @None string |} = None.
Proof.
  assert (ParseQuery string sampleUnmarshal sampleQuote (url.Set_ ∅ "filter" "{}")
          = Ok {| Fields := []; Filter := Some "{}"; Sort := []; Limit := 1000;
                  Offset := 0; offsetIsSet := false; Page := 0; pageIsSet := false;
                  Meta := None |}) as H by reflexivity.
  split; [exact H|].
  exact (proj1 (ParseQuery_yields_valid_queries sampleUnmarshal sampleQuote _ _ H)).
Defined.

(** X26: a valid query with an allowed method is looked up in the cache under
    the collection it names and the encoded values (limit=1000 if the encoding
    is empty); a hit is returned as a 200 response with the cached bytes. *)
Theorem Query_is_served_under_its_collection
    {FilterT : Type} (Marshal : FilterT -> result string)
    (Encode : url.Values -> string)
    {Q : Type} `{!QueryCache Q} (Do : Request -> result Response)
    (d : DirectusClient) (method collection : string)
    (query : DirectusQuery FilterT) (input : option bytes) (q : Q)
    (v : url.Values) (query' : DirectusQuery FilterT) (data : io.Reader) :
  validate query = None ->
  BuildQuery FilterT Marshal query = (Ok v, query') ->
  allowedMethod method = true ->
  cacheGet collection (if (Encode v =? "")%string then "limit=1000" else Encode v) q
  = Ok data ->
  Query FilterT Marshal Encode Do d method collection query input q
  = Returned (Ok {| StatusCode := 200; Body := data |}) q.
Proof.
  intros Hval HB Hm Hget. unfold Query. rewrite Hval, HB.
  rewrite Call_cases. cbn [Method ReqURL Path]. rewrite Hm. cbn [negb].
  change ("/items/" ++ collection)%string with (String "/" ("items/" ++ collection)).
  unfold strings.SplitN2. rewrite Cut_items.
  unfold prepareURL. cbn [RawQuery]. rewrite default_limit. by rewrite Hget.
Qed.

Lemma Query_emailQuery_hit :
  Query string sampleMarshal sampleEncode (originOK "fresh") localClient "GET" "users"
    emailQuery None (stored "users" "filter={}&limit=1000" "cached" (cacheOver true))
  = Returned (Ok {| StatusCode := 200;
                    Body := io.NewReader (list_byte_of_string "cached") |})
      (stored "users" "filter={}&limit=1000" "cached" (cacheOver true)).
Proof.
  eapply (Query_is_served_under_its_collection sampleMarshal sampleEncode
            (originOK "fresh") localClient "GET" "users" emailQuery None
            (stored "users" "filter={}&limit=1000" "cached" (cacheOver true))).
  - reflexivity.
  - reflexivity.
  - reflexivity.
  - vm_compute. reflexivity.
Defined.
